(** * LakeMapper: the fish-survey fetch / cache / parse subsystem

    A shallow embedding of [lakemapper/fish_survey_fetcher.py] (with the
    constants it takes from [lakemapper/config.py]) and the properties of
    it that the specification states.

    - Python values that come out of [json] are the type [json]; [None] is
      [JNull], an [int] is a [Z], a [float] is a binary64 [float].
    - A Python exception is a value of [exn]; code that may raise returns
      a [res], and [try ... except] is [try_except].
    - Code that touches the clock, the cache directory or the network is
      a function of a [World], in the state-and-exception monad [M]. *)

From Stdlib Require Import ZArith String Ascii List Bool Floats Lia.
From stdpp Require Import gmap strings list.

Local Open Scope string_scope.
Local Open Scope Z_scope.

(** ** Exceptions *)

Inductive exn_class : Type :=
| Exception
| TypeError | AttributeError | KeyError | IndexError | ValueError
| OverflowError | JSONDecodeError | UnicodeDecodeError | RecursionError
| IOError | Timeout | RequestException.

(** [str(e)] is the message; the texts are CPython's, and nothing below
    depends on them beyond their being strings. *)
Record exn : Type := Exn { exn_cls : exn_class; exn_msg : string }.

(** [subclass c d]: an [except d] clause catches an exception of class [c].
    [json.JSONDecodeError] and [UnicodeDecodeError] derive from
    [ValueError], neither from the other; [RecursionError] derives from
    [RuntimeError], which no clause of the code names;
    [requests.exceptions.Timeout] derives from [RequestException], which
    derives from [IOError]; all of them derive from [Exception]. *)
Definition subclass (c d : exn_class) : bool :=
  match c, d with
  | _, Exception => true
  | TypeError, TypeError | AttributeError, AttributeError
  | KeyError, KeyError | IndexError, IndexError | ValueError, ValueError
  | OverflowError, OverflowError | JSONDecodeError, JSONDecodeError
  | UnicodeDecodeError, UnicodeDecodeError
  | RecursionError, RecursionError
  | IOError, IOError | Timeout, Timeout
  | RequestException, RequestException => true
  | JSONDecodeError, ValueError | UnicodeDecodeError, ValueError => true
  | Timeout, RequestException | Timeout, IOError
  | RequestException, IOError => true
  | _, _ => false
  end.

Inductive res (A : Type) : Type :=
| Ok (a : A)
| Raise (e : exn).
Arguments Ok {A} a.
Arguments Raise {A} e.

Definition raise {A} (c : exn_class) (msg : string) : res A :=
  Raise (Exn c msg).

#[global] Instance res_ret : MRet res := fun A a => Ok a.
#[global] Instance res_bind : MBind res := fun A B f m =>
  match m with
  | Ok a => f a
  | Raise e => Raise e
  end.

(** The first [except] clause that names a class of the exception. *)
Fixpoint find_handler {H} (c : exn_class)
    (clauses : list (list exn_class * H)) : option H :=
  match clauses with
  | [] => None
  | (classes, h) :: rest =>
      if existsb (subclass c) classes then Some h else find_handler c rest
  end.

(** [try: body  except classes1: handler1  except classes2: ...] *)
Definition try_except {A} (body : res A)
    (clauses : list (list exn_class * (exn -> res A))) : res A :=
  match body with
  | Ok a => Ok a
  | Raise e =>
      match find_handler (exn_cls e) clauses with
      | Some h => h e
      | None => Raise e
      end
  end.

Fixpoint mapM {A B} (f : A -> res B) (l : list A) : res (list B) :=
  match l with
  | [] => Ok []
  | x :: l' => y ← f x; ys ← mapM f l'; Ok (y :: ys)
  end.

(** ** JSON values, as Python objects *)

#[warnings="-register-all"]
Inductive json : Type :=
| JNull
| JBool (b : bool)
| JInt (z : Z)
| JFloat (f : float)
| JStr (s : string)
| JArr (l : list json)
| JObj (o : list (string * json)).

Module Py.

Definition type_name (v : json) : string :=
  match v with
  | JNull => "NoneType"
  | JBool _ => "bool"
  | JInt _ => "int"
  | JFloat _ => "float"
  | JStr _ => "str"
  | JArr _ => "list"
  | JObj _ => "dict"
  end.

(** A [dict] is kept as the list of its items in insertion order; a key
    occurs once. *)
Fixpoint dict_lookup (k : string) (o : list (string * json)) : option json :=
  match o with
  | [] => None
  | (k', v) :: o' => if String.eqb k k' then Some v else dict_lookup k o'
  end.

(** [d[k] = v] *)
Fixpoint dict_set (k : string) (v : json) (o : list (string * json))
    : list (string * json) :=
  match o with
  | [] => [(k, v)]
  | (k', v') :: o' =>
      if String.eqb k k' then (k, v) :: o' else (k', v') :: dict_set k v o'
  end.

(** [bool(v)] *)
Definition truthy (v : json) : bool :=
  match v with
  | JNull => false
  | JBool b => b
  | JInt z => negb (z =? 0)
  | JFloat f => negb (PrimFloat.eqb f 0%float)
  | JStr s => negb (String.eqb s "")
  | JArr l => match l with [] => false | _ => true end
  | JObj o => match o with [] => false | _ => true end
  end.

(** [v == s] for a string literal [s] *)
Definition eq_str (v : json) (s : string) : bool :=
  match v with
  | JStr s' => String.eqb s' s
  | _ => false
  end.

Fixpoint is_substring (needle hay : string) : bool :=
  String.prefix needle hay ||
  match hay with
  | EmptyString => false
  | String _ hay' => is_substring needle hay'
  end.

(** [k in v] for a string literal [k] *)
Definition contains (k : string) (v : json) : res bool :=
  match v with
  | JObj o => Ok (bool_decide (is_Some (dict_lookup k o)))
  | JArr l => Ok (existsb (fun x => eq_str x k) l)
  | JStr s => Ok (is_substring k s)
  | _ => raise TypeError
           ("argument of type '" +:+ type_name v +:+ "' is not iterable")
  end.

(** [v[k]] for a string literal [k] *)
Definition getitem (v : json) (k : string) : res json :=
  match v with
  | JObj o =>
      match dict_lookup k o with
      | Some x => Ok x
      | None => raise KeyError ("'" +:+ k +:+ "'")
      end
  | JArr _ => raise TypeError "list indices must be integers or slices, not str"
  | JStr _ => raise TypeError "string indices must be integers, not 'str'"
  | _ => raise TypeError
           ("'" +:+ type_name v +:+ "' object is not subscriptable")
  end.

(** [v.get(k, default)]: only a [dict] has the method. *)
Definition get (v : json) (k : string) (dflt : json) : res json :=
  match v with
  | JObj o => Ok (default dflt (dict_lookup k o))
  | _ => raise AttributeError
           ("'" +:+ type_name v +:+ "' object has no attribute 'get'")
  end.

(** [len(v)] *)
Definition len (v : json) : res Z :=
  match v with
  | JArr l => Ok (Z.of_nat (length l))
  | JObj o => Ok (Z.of_nat (length o))
  | JStr s => Ok (Z.of_nat (String.length s))
  | _ => raise TypeError
           ("object of type '" +:+ type_name v +:+ "' has no len()")
  end.

(** [for x in v]: the items a loop over [v] sees. A [dict] yields its
    keys, a [str] its characters. *)
Definition iter (v : json) : res (list json) :=
  match v with
  | JArr l => Ok l
  | JObj o => Ok (map (fun kv => JStr (fst kv)) o)
  | JStr s => Ok (map (fun c => JStr (String c EmptyString))
                      (list_ascii_of_string s))
  | _ => raise TypeError
           ("'" +:+ type_name v +:+ "' object is not iterable")
  end.

(** *** Numbers *)

Inductive number : Type :=
| NInt (z : Z)
| NFloat (f : float).

Definition int_of_bool (b : bool) : Z := if b then 1 else 0.

(** [bool] is a subclass of [int]. *)
Definition as_number (v : json) : option number :=
  match v with
  | JBool b => Some (NInt (int_of_bool b))
  | JInt z => Some (NInt z)
  | JFloat f => Some (NFloat f)
  | _ => None
  end.

Definition of_number (n : number) : json :=
  match n with
  | NInt z => JInt z
  | NFloat f => JFloat f
  end.

(** [float(z)] for an [int]: the nearest binary64, ties to even. *)
Definition float_of_int (z : Z) : res float :=
  match binary_normalize prec emax z 0 false with
  | S754_infinity _ =>
      raise OverflowError "int too large to convert to float"
  | sf => Ok (SF2Prim sf)
  end.

(** The binary64 nearest to [m * 10 ^ e10], for [0 <= m]; beyond the
    range it is an infinity. For a negative exponent the quotient is
    taken with 55 bits or more and a sticky bit, so that rounding it
    rounds the exact value. *)
Definition float_of_decimal (neg : bool) (m e10 : Z) : float :=
  let sgn := if neg then -1 else 1 in
  if m =? 0 then (if neg then neg_zero else zero)
  else if 0 <=? e10
  then SF2Prim (binary_normalize prec emax (sgn * m * 10 ^ e10) 0 false)
  else
    let d := 10 ^ (- e10) in
    let s := Z.max 0 (Z.log2 d - Z.log2 m + 56) in
    let n := m * 2 ^ s in
    let sticky := if n mod d =? 0 then 0 else 1 in
    SF2Prim (binary_normalize prec emax
               (sgn * (2 * (n / d) + sticky)) (- s - 1) false).

(** What [float()] strips from the ends of a string. A string is the
    sequence of its code points, here below 256. [float()] takes the tab,
    the line breaks and the blank of ASCII for white space, and of the
    code points beyond ASCII the white space of Unicode: the next-line
    control (133) and the no-break space (160). The separators 28 to 31,
    which [str.strip] removes, it leaves in place. *)
Definition is_space (c : ascii) : bool :=
  let n := N_of_ascii c in
  ((9 <=? n) && (n <=? 13) || (n =? 32) || (n =? 133) || (n =? 160))%N.

Definition is_digit (c : ascii) : bool :=
  let n := N_of_ascii c in ((48 <=? n) && (n <=? 57))%N.

Definition lower (c : ascii) : ascii :=
  let n := N_of_ascii c in
  if ((65 <=? n) && (n <=? 90))%N then ascii_of_N (n + 32) else c.

Fixpoint drop_spaces (l : list ascii) : list ascii :=
  match l with
  | c :: l' => if is_space c then drop_spaces l' else l
  | [] => []
  end.

Definition strip (l : list ascii) : list ascii :=
  rev (drop_spaces (rev (drop_spaces l))).

(** An underscore may only stand between two digits; they are dropped. *)
Fixpoint drop_underscores (prev : ascii) (l : list ascii)
    : option (list ascii) :=
  match l with
  | [] => if Ascii.eqb prev "_" then None else Some []
  | c :: l' =>
      if Ascii.eqb c "_"
      then if is_digit prev then drop_underscores c l' else None
      else if Ascii.eqb prev "_" && negb (is_digit c) then None
      else cons c <$> drop_underscores c l'
  end.

(** The leading digits of [l]: their value after [acc], how many there
    are, and what follows them. *)
Fixpoint take_digits (acc : Z) (n : Z) (l : list ascii)
    : Z * Z * list ascii :=
  match l with
  | c :: l' =>
      if is_digit c
      then take_digits (10 * acc + (Z.of_N (N_of_ascii c) - 48)) (n + 1) l'
      else (acc, n, l)
  | [] => (acc, n, [])
  end.

Definition take_sign (l : list ascii) : bool * list ascii :=
  match l with
  | "-"%char :: l' => (true, l')
  | "+"%char :: l' => (false, l')
  | _ => (false, l)
  end.

(** The exponent part: nothing, or [e], an optional sign and digits. *)
Definition take_exponent (l : list ascii) : option Z :=
  match l with
  | [] => Some 0
  | c :: l' =>
      if Ascii.eqb (lower c) "e"
      then
        let '(neg, l'') := take_sign l' in
        match take_digits 0 0 l'' with
        | (x, n, []) =>
            if 0 <? n then Some (if neg then - x else x) else None
        | _ => None
        end
      else None
  end.

Definition parse_decimal (neg : bool) (l : list ascii) : option float :=
  let '(i, ni, r1) := take_digits 0 0 l in
  let '(m, nf, r2) :=
    match r1 with
    | "."%char :: r => take_digits i 0 r
    | _ => (i, 0, r1)
    end in
  if 0 <? ni + nf
  then x ← take_exponent r2; Some (float_of_decimal neg m (x - nf))
  else None.

Definition parse_float (s : string) : option float :=
  let l := strip (list_ascii_of_string s) in
  l' ← (if existsb (Ascii.eqb "_") l then drop_underscores Ascii.zero l
        else Some l);
  let '(neg, body) := take_sign l' in
  let word := string_of_list_ascii (map lower body) in
  if String.eqb word "inf" || String.eqb word "infinity"
  then Some (if neg then neg_infinity else infinity)
  else if String.eqb word "nan" then Some nan
  else parse_decimal neg body.

(** [float(v)] *)
Definition to_float (v : json) : res float :=
  match v with
  | JFloat f => Ok f
  | JInt z => float_of_int z
  | JBool b => float_of_int (int_of_bool b)
  | JStr s =>
      match parse_float s with
      | Some f => Ok f
      | None =>
          raise ValueError
            ("could not convert string to float: '" +:+ s +:+ "'")
      end
  | _ => raise TypeError
           ("float() argument must be a string or a real number, not '"
            +:+ type_name v +:+ "'")
  end.

(** [total += v], the running total being an [int] or a [float]. *)
Definition iadd (total : number) (v : json) : res number :=
  match as_number v with
  | Some y =>
      match total, y with
      | NInt a, NInt b => Ok (NInt (a + b))
      | NInt a, NFloat g => f ← float_of_int a; Ok (NFloat (f + g)%float)
      | NFloat f, NInt b => g ← float_of_int b; Ok (NFloat (f + g)%float)
      | NFloat f, NFloat g => Ok (NFloat (f + g)%float)
      end
  | None =>
      raise TypeError
        ("unsupported operand type(s) for +=: '"
         +:+ type_name (of_number total) +:+ "' and '"
         +:+ type_name v +:+ "'")
  end.

(** *** Ordering and [list.sort] *)

(** An [int] against a [float], compared exactly. *)
Definition Z_ltb_float (z : Z) (f : float) : bool :=
  match Prim2SF f with
  | S754_nan => false
  | S754_infinity neg => negb neg
  | S754_zero _ => z <? 0
  | S754_finite neg m e =>
      let v := if neg then Z.neg m else Z.pos m in
      if 0 <=? e then z <? v * 2 ^ e else z * 2 ^ (- e) <? v
  end.

Definition float_ltb_Z (f : float) (z : Z) : bool :=
  match Prim2SF f with
  | S754_nan => false
  | S754_infinity neg => neg
  | S754_zero _ => 0 <? z
  | S754_finite neg m e =>
      let v := if neg then Z.neg m else Z.pos m in
      if 0 <=? e then v * 2 ^ e <? z else v <? z * 2 ^ (- e)
  end.

Definition number_ltb (a b : number) : bool :=
  match a, b with
  | NInt x, NInt y => x <? y
  | NInt x, NFloat g => Z_ltb_float x g
  | NFloat f, NInt y => float_ltb_Z f y
  | NFloat f, NFloat g => PrimFloat.ltb f g
  end.

Definition float_eqb_Z (f : float) (z : Z) : bool :=
  match Prim2SF f with
  | S754_nan | S754_infinity _ => false
  | S754_zero _ => z =? 0
  | S754_finite neg m e =>
      let v := if neg then Z.neg m else Z.pos m in
      if 0 <=? e then v * 2 ^ e =? z else v =? z * 2 ^ (- e)
  end.

(** Two numbers as the items of a [list] or the values of a [dict]
    compare: equal by value, or the same object. The decoder has one
    object for NaN, so a NaN item is the same as a NaN item. *)
Definition number_same (a b : number) : bool :=
  match a, b with
  | NInt x, NInt y => x =? y
  | NInt x, NFloat g => float_eqb_Z g x
  | NFloat f, NInt y => float_eqb_Z f y
  | NFloat f, NFloat g =>
      PrimFloat.eqb f g || PrimFloat.is_nan f && PrimFloat.is_nan g
  end.

(** [a is b or a == b], the test by which the comparison of two lists
    looks for the first pair of items that differ. Two lists are equal
    item by item, two dictionaries key by key in any order. *)
Fixpoint same (a b : json) {struct a} : bool :=
  match a, b with
  | JNull, JNull => true
  | JStr s, JStr t => String.eqb s t
  | JArr l1, JArr l2 =>
      (fix items (l1 l2 : list json) {struct l1} : bool :=
         match l1, l2 with
         | [], [] => true
         | x :: l1', y :: l2' => same x y && items l1' l2'
         | _, _ => false
         end) l1 l2
  | JObj o1, JObj o2 =>
      Nat.eqb (length o1) (length o2) &&
      (fix values (o1 : list (string * json)) {struct o1} : bool :=
         match o1 with
         | [] => true
         | (k, v) :: o1' =>
             match dict_lookup k o2 with
             | Some v' => same v v' && values o1'
             | None => false
             end
         end) o1
  | _, _ =>
      match as_number a, as_number b with
      | Some x, Some y => number_same x y
      | _, _ => false
      end
  end.

(** [a < b] between sort keys. Two strings compare by code point, two
    numbers by value; two lists by the first pair of items that differ
    (found with [same], then compared with [<]) or, when one is a prefix
    of the other, by length. [None], a [dict] or operands of two kinds
    raise [TypeError]. *)
Fixpoint lt (a b : json) {struct a} : res bool :=
  match a, b with
  | JStr s, JStr t => Ok (String.ltb s t)
  | JArr l1, JArr l2 =>
      (fix items (l1 l2 : list json) {struct l1} : res bool :=
         match l1, l2 with
         | x :: l1', y :: l2' => if same x y then items l1' l2' else lt x y
         | [], _ :: _ => Ok true
         | _, [] => Ok false
         end) l1 l2
  | _, _ =>
      match as_number a, as_number b with
      | Some x, Some y => Ok (number_ltb x y)
      | _, _ =>
          raise TypeError
            ("'<' not supported between instances of '"
             +:+ type_name a +:+ "' and '" +:+ type_name b +:+ "'")
      end
  end.

(** [x] goes behind every item whose key is greater than its own and
    before the first whose key is not: the order is descending and
    items with equal keys keep their original order. *)
Fixpoint insert_desc (x : json * json) (l : list (json * json))
    : res (list (json * json)) :=
  match l with
  | [] => Ok [x]
  | y :: l' =>
      b ← lt (fst x) (fst y);
      if b : bool then r ← insert_desc x l'; Ok (y :: r)
      else Ok (x :: y :: l')
  end.

Fixpoint sort_desc (l : list (json * json)) : res (list (json * json)) :=
  match l with
  | [] => Ok []
  | x :: l' => s ← sort_desc l'; insert_desc x s
  end.

(** [l.sort(key=key, reverse=True)]: the keys are computed first, then
    the list is put in descending key order, stably. A list of fewer
    than two items is compared with nothing. *)
Definition sort_reverse (key : json -> res json) (l : list json)
    : res (list json) :=
  keys ← mapM key l;
  sorted ← sort_desc (zip keys l);
  Ok (map snd sorted).

End Py.

Abbreviation dict := (list (string * json)).

(** ** RecordParser: [parse_fish_survey_data] *)

Definition zero_summary : dict :=
  [("survey_date", JNull); ("survey_method", JNull); ("survey_type", JNull);
   ("fish_species", JArr []); ("total_fish_caught", JInt 0)].

Fixpoint filterM {A} (p : A -> res bool) (l : list A) : res (list A) :=
  match l with
  | [] => Ok []
  | x :: l' =>
      b ← p x; r ← filterM p l'; Ok (if b : bool then x :: r else r)
  end.

(** [s.get('fishCatchSummaries') and len(s.get('fishCatchSummaries', [])) > 0] *)
Definition has_fish_data (s : json) : res bool :=
  c ← Py.get s "fishCatchSummaries" JNull;
  if Py.truthy c
  then c' ← Py.get s "fishCatchSummaries" (JArr []);
       n ← Py.len c';
       Ok (0 <? n)
  else Ok false.

(** [s.get('surveyType') == ty and <has fish data>] *)
Definition is_survey_of_type (ty : string) (s : json) : res bool :=
  t ← Py.get s "surveyType" JNull;
  if Py.eq_str t ty then has_fish_data s else Ok false.

Definition surveyDate_key (x : json) : res json :=
  Py.get x "surveyDate" (JStr "").

(** The surveys of type [ty] with fish data, most recent first; the
    first of them replaces [selected_survey] when there is one. *)
Definition select_most_recent (ty : string) (surveys : list json)
    (selected_survey : option json) : res (option json) :=
  typed_surveys ← filterM (is_survey_of_type ty) surveys;
  match typed_surveys with
  | [] => Ok selected_survey
  | _ =>
      sorted ← Py.sort_reverse surveyDate_key typed_surveys;
      match sorted with
      | first :: _ => Ok (Some first)
      | [] => raise IndexError "list index out of range"
      end
  end.

(** [for survey in surveys: if <has fish data>: selected_survey = survey; break] *)
Fixpoint select_fallback (surveys : list json) (selected_survey : option json)
    : res (option json) :=
  match surveys with
  | [] => Ok selected_survey
  | survey :: rest =>
      b ← has_fish_data survey;
      if b : bool then Ok (Some survey) else select_fallback rest selected_survey
  end.

(** [bool(selected_survey)], the variable being [None] or a survey. *)
Definition selected_truthy (selected_survey : option json) : bool :=
  match selected_survey with
  | None => false
  | Some s => Py.truthy s
  end.

(** Lines 129-167: the value of [selected_survey] once the three passes
    over [surveys] are done. *)
Definition select_survey (surveys : list json) : res (option json) :=
  selected_survey ← select_most_recent "Standard Survey" surveys None;
  selected_survey ←
    (if negb (selected_truthy selected_survey)
     then select_most_recent "Targeted Survey" surveys selected_survey
     else Ok selected_survey);
  if negb (selected_truthy selected_survey)
  then select_fallback surveys selected_survey
  else Ok selected_survey.

(** [if value is not None: try: float(value) except (ValueError, TypeError): None] *)
Definition float_or_none (value : json) : res json :=
  match value with
  | JNull => Ok JNull
  | _ =>
      try_except (f ← Py.to_float value; Ok (JFloat f))
        [([ValueError; TypeError], fun _ => Ok JNull)]
  end.

Definition species_info (catch_summary : json) : res json :=
  species_name ← Py.get catch_summary "species" (JStr "Unknown");
  count ← Py.get catch_summary "totalCatch" (JInt 0);
  average ← Py.get catch_summary "averageWeight" JNull;
  total ← Py.get catch_summary "totalWeight" JNull;
  quartile ← Py.get catch_summary "quartileWeight" JNull;
  gear ← Py.get catch_summary "gear" (JStr "Unknown");
  cpue ← Py.get catch_summary "CPUE" JNull;
  average ← float_or_none average;
  total ← float_or_none total;
  cpue ← float_or_none cpue;
  Ok (JObj
        [("species_name", species_name);
         ("count", count);
         ("length_stats",
           JObj [("average", JNull); ("minimum", JNull); ("maximum", JNull)]);
         ("weight_stats",
           JObj [("average", average); ("total", total);
                 ("quartile", quartile)]);
         ("gear", gear);
         ("cpue", cpue)]).

(** The loop over the catch summaries: [fish_species] grows by one entry
    and [total_fish] by the entry's count at each turn. *)
Fixpoint extract_catches (catch_summaries : list json)
    (fish_species : list json) (total_fish : Py.number)
    : res (list json * Py.number) :=
  match catch_summaries with
  | [] => Ok (fish_species, total_fish)
  | catch_summary :: rest =>
      info ← species_info catch_summary;
      count ← Py.getitem info "count";
      total_fish ← Py.iadd total_fish count;
      extract_catches rest (fish_species ++ [info]) total_fish
  end.

(** Lines 169-216: [parsed_data] filled in from the selected survey. *)
Definition summarize (selected_survey : json) : res dict :=
  survey_date ← Py.get selected_survey "surveyDate" JNull;
  survey_method ← Py.get selected_survey "surveyMethod" JNull;
  survey_type ← Py.get selected_survey "surveyType" JNull;
  let parsed_data :=
    Py.dict_set "survey_type" survey_type
      (Py.dict_set "survey_method" survey_method
         (Py.dict_set "survey_date" survey_date zero_summary)) in
  has_catches ← Py.contains "fishCatchSummaries" selected_survey;
  if has_catches : bool
  then
    summaries ← Py.getitem selected_survey "fishCatchSummaries";
    catch_summaries ← Py.iter summaries;
    '(fish_species, total_fish) ← extract_catches catch_summaries [] (Py.NInt 0);
    Ok (Py.dict_set "total_fish_caught" (Py.of_number total_fish)
          (Py.dict_set "fish_species" (JArr fish_species) parsed_data))
  else Ok parsed_data.

(** The body of the [try] block. *)
Definition parse_body (raw_data : json) : res dict :=
  has_result ← Py.contains "result" raw_data;
  if negb has_result then Ok zero_summary
  else
    result ← Py.getitem raw_data "result";
    match result with
    | JObj _ =>
        has_surveys ← Py.contains "surveys" result;
        surveys ← (if has_surveys : bool then Py.getitem result "surveys"
                   else Ok JNull);
        if has_surveys && Py.truthy surveys
        then
          surveys ← Py.iter surveys;
          selected_survey ← select_survey surveys;
          if selected_truthy selected_survey
          then match selected_survey with
               | Some s => summarize s
               | None => Ok zero_summary
               end
          else Ok zero_summary
        else Ok zero_summary
    | _ => Ok zero_summary
    end.

Definition parse_error_summary (e : exn) : dict :=
  zero_summary ++ [("parse_error", JStr (exn_msg e))].

Definition parse_fish_survey_data (raw_data : json) : res dict :=
  try_except (parse_body raw_data)
    [([Exception], fun e => Ok (parse_error_summary e))].

(** ** The environment: clock, cache directory, network *)

(** What [json.load] makes of the bytes of a file of the cache directory:
    - [Malformed]: text that is not JSON, [json.JSONDecodeError];
    - [NotUTF8]: bytes that are not text in the encoding of [open],
      [UnicodeDecodeError];
    - [TooDeep]: arrays or objects nested beyond the interpreter's
      recursion limit, [RecursionError];
    - [HugeInt]: an integer of more digits than [int] converts from a
      string (4300 by default), a plain [ValueError];
    - [Document d]: the JSON value [d].
    [json.dump] followed by [json.load] gives the value back, so a file
    written by [json.dump] is the document written. *)
Inductive file_content : Type :=
| Malformed
| NotUTF8
| TooDeep
| HugeInt
| Document (d : json).

Record file : Type := File { st_mtime : float; content : file_content }.

(** [body] is what [response.json()] decodes, [None] when the body is
    not JSON. The bodies of this model are of these two kinds: a body
    that the decoder gives up on for another reason than its syntax is
    not among them. *)
Record response : Type := Response { status_code : Z; body : option json }.

Inductive net_outcome : Type :=
| Responds (r : response)
| TimesOut
| Fails.

(** [net id n] is what the [n]-th request of the run meets when it asks
    for [id]; [sent] and [slept] log the requests made and the sleeps
    taken, latest first. [readonly] holds the cache files that cannot be
    opened for writing, [unreadable] those that cannot be opened for
    reading (a file of mode 0200 is in the second and not in the first);
    [stat] works on both. *)
Record World : Type := mkWorld {
  clock : float;
  cache_dir : gmap string file;
  readonly : gset string;
  unreadable : gset string;
  net : string -> nat -> net_outcome;
  sent : list string;
  slept : list float
}.

Definition M (A : Type) : Type := World -> res A * World.

#[global] Instance M_ret : MRet M := fun A a w => (Ok a, w).
#[global] Instance M_bind : MBind M := fun A B f m w =>
  match m w with
  | (Ok a, w') => f a w'
  | (Raise e, w') => (Raise e, w')
  end.

Definition lift {A} (r : res A) : M A := fun w => (r, w).

Definition try_exceptM {A} (body : M A)
    (clauses : list (list exn_class * (exn -> M A))) : M A :=
  fun w =>
    match body w with
    | (Ok a, w') => (Ok a, w')
    | (Raise e, w') =>
        match find_handler (exn_cls e) clauses with
        | Some h => h e w'
        | None => (Raise e, w')
        end
    end.

Definition time_time : M float := fun w => (Ok (clock w), w).

(** The longest sleep [time.sleep] takes, about 292 years. *)
Definition sleep_max : float := 0x1.12e0be826d694p+33%float.

(** The world after [secs] seconds of sleep. *)
Definition advance (secs : float) (w : World) : World :=
  mkWorld (clock w + secs)%float (cache_dir w) (readonly w) (unreadable w)
    (net w) (sent w) (secs :: slept w).

(** The world after a request for [dowlknum] has gone out. *)
Definition log_request (dowlknum : string) (w : World) : World :=
  mkWorld (clock w) (cache_dir w) (readonly w) (unreadable w) (net w)
    (dowlknum :: sent w) (slept w).

(** The world after [name] has been written with [data]. *)
Definition store (name : string) (data : json) (w : World) : World :=
  mkWorld (clock w)
    (<[name := File (clock w) (Document data)]> (cache_dir w))
    (readonly w) (unreadable w) (net w) (sent w) (slept w).

(** The world at a later (or any other) reading of the clock. *)
Definition at_time (now : float) (w : World) : World :=
  mkWorld now (cache_dir w) (readonly w) (unreadable w) (net w) (sent w)
    (slept w).

(** [time.sleep(secs)] refuses a negative or NaN length. *)
Definition time_sleep (secs : float) : M unit := fun w =>
  if negb (PrimFloat.leb 0 secs)
  then (raise ValueError "sleep length must be non-negative", w)
  else if PrimFloat.ltb sleep_max secs
  then (raise OverflowError "timestamp too large to convert to C PyTime_t", w)
  else (Ok tt, advance secs w).

(** [requests.get(base_url, params={'type': 'lake_survey', 'id': dowlknum}, ...)] *)
Definition requests_get (dowlknum : string) : M response := fun w =>
  match net w dowlknum (length (sent w)) with
  | Responds r => (Ok r, log_request dowlknum w)
  | TimesOut => (raise Timeout "Read timed out.", log_request dowlknum w)
  | Fails =>
      (raise RequestException "Connection aborted.", log_request dowlknum w)
  end.

(** [response.json()] *)
Definition response_json (r : response) : res json :=
  match body r with
  | Some data => Ok data
  | None => raise JSONDecodeError "Expecting value: line 1 column 1 (char 0)"
  end.

(** ** Configuration ([config.py]) *)

Definition CACHE_DIR : string := "cache".
Definition MAX_WORKERS : Z := 10.
Definition REQUEST_TIMEOUT : Z := 30.
Definition MAX_RETRIES : nat := 3.

(** ** RemoteFetcher: [fetch_fish_survey_data] *)

(** How one turn of a loop ends: [continue], or [return a]. *)
Inductive loop_step (A : Type) : Type :=
| Continue
| Return (a : A).
Arguments Continue {A}.
Arguments Return {A} a.

(** [if attempt < MAX_RETRIES - 1: time.sleep(secs); continue] and
    otherwise [return None]. *)
Definition backoff (attempt : nat) (secs : float) : M (loop_step json) :=
  if Z.of_nat attempt <? Z.of_nat MAX_RETRIES - 1
  then _ ← time_sleep secs; mret Continue
  else mret (Return JNull).

(** The body of the [for attempt in range(MAX_RETRIES)] loop. *)
Definition fetch_attempt (dowlknum : string) (attempt : nat)
    : M (loop_step json) :=
  try_exceptM
    (response ← requests_get dowlknum;
     if status_code response =? 200
     then lift (try_except (data ← response_json response; Ok (Return data))
                  [([JSONDecodeError], fun _ => Ok (Return JNull))])
     else if status_code response =? 404
     then mret (Return JNull)
     else backoff attempt 1)
    [([Timeout], fun _ => backoff attempt 2);
     ([RequestException], fun _ => backoff attempt 1)].

Fixpoint fetch_loop (dowlknum : string) (attempts : list nat) : M json :=
  match attempts with
  | [] => mret JNull
  | attempt :: rest =>
      step ← fetch_attempt dowlknum attempt;
      match step with
      | Return data => mret data
      | Continue => fetch_loop dowlknum rest
      end
  end.

Definition fetch_fish_survey_data (dowlknum : string) : M json :=
  fetch_loop dowlknum (seq 0 MAX_RETRIES).

(** ** RecordCache *)

(** [cache_dir / f"fish_survey_{dowlknum}.json"], as the file's name in
    the cache directory. *)
Definition _get_cache_file_path (dowlknum : string) : string :=
  "fish_survey_" +:+ dowlknum +:+ ".json".

(** [24 * 60 * 60] *)
Definition TTL : float := 86400%float.

(** [cache_age > 24 * 60 * 60] for [cache_age = time.time() - st_mtime] *)
Definition expired (now mtime : float) : bool :=
  PrimFloat.ltb TTL (now - mtime)%float.

(** [json.load(f)] *)
Definition json_load (f : file) : res json :=
  match content f with
  | Malformed => raise JSONDecodeError "Expecting value"
  | NotUTF8 =>
      raise UnicodeDecodeError "'utf-8' codec can't decode byte: invalid start byte"
  | TooDeep =>
      raise RecursionError "maximum recursion depth exceeded while decoding a JSON array"
  | HugeInt =>
      raise ValueError "Exceeds the limit (4300 digits) for integer string conversion"
  | Document d => Ok d
  end.

(** [with open(cache_file, 'r') as f: json.load(f)] *)
Definition read_json (cache_file : string) (f : file) : M json := fun w =>
  if bool_decide (cache_file ∈ unreadable w)
  then (raise IOError "Permission denied", w)
  else (json_load f, w).

Definition _load_from_cache (dowlknum : string) : M json := fun w =>
  let cache_file := _get_cache_file_path dowlknum in
  match cache_dir w !! cache_file with
  | None => (Ok JNull, w)
  | Some f =>
      try_exceptM
        (now ← time_time;
         if expired now (st_mtime f) then mret JNull
         else read_json cache_file f)
        [([JSONDecodeError; IOError], fun _ => mret JNull)] w
  end.

(** [with open(cache_file, 'w') as f: json.dump(data, f, indent=2)] *)
Definition write_json (cache_file : string) (data : json) : M unit := fun w =>
  if bool_decide (cache_file ∈ readonly w)
  then (raise IOError "Permission denied", w)
  else (Ok tt, store cache_file data w).

Definition _save_to_cache (dowlknum : string) (data : json) : M unit :=
  match data with
  | JNull => mret tt
  | _ =>
      try_exceptM (write_json (_get_cache_file_path dowlknum) data)
        [([IOError], fun _ => mret tt)]
  end.

(** [glob("fish_survey_*.json")] *)
Definition is_cache_file (name : string) : bool :=
  String.prefix "fish_survey_" name &&
  String.prefix (String.rev ".json") (String.rev name) &&
  (17 <=? String.length name)%nat.

Record cache_stats : Type := CacheStats {
  total_files : nat; fresh_files : nat; expired_files : nat
}.

Definition get_cache_stats : M cache_stats := fun w =>
  let cache_files :=
    filter (fun nf => is_cache_file (fst nf) = true)
      (map_to_list (cache_dir w)) in
  let fresh :=
    filter (fun nf =>
              PrimFloat.leb (clock w - st_mtime (snd nf))%float TTL = true)
      cache_files in
  (Ok (CacheStats (length cache_files) (length fresh)
         (length cache_files - length fresh)), w).

(** ** BatchCoordinator *)

Definition no_data_summary (dowlknum : string) (now : float) : dict :=
  [("dowlknum", JStr dowlknum); ("survey_date", JNull);
   ("survey_method", JNull); ("survey_type", JNull);
   ("fish_species", JArr []); ("total_fish_caught", JInt 0);
   ("fetch_timestamp", JFloat now); ("no_data_available", JBool true)].

Definition is_None (v : json) : bool :=
  match v with JNull => true | _ => false end.

Definition get_fish_survey_summary (dowlknum : string) (use_cache : bool)
    : M json :=
  cached_data ← (if use_cache then _load_from_cache dowlknum else mret JNull);
  if use_cache && negb (is_None cached_data) then mret cached_data
  else
    raw_data ← fetch_fish_survey_data dowlknum;
    if is_None raw_data
    then
      now ← time_time;
      let default_data := JObj (no_data_summary dowlknum now) in
      _ ← (if use_cache then _save_to_cache dowlknum default_data
           else mret tt);
      mret default_data
    else
      survey_data ← lift (parse_fish_survey_data raw_data);
      let survey_data := Py.dict_set "dowlknum" (JStr dowlknum) survey_data in
      now ← time_time;
      let survey_data := Py.dict_set "fetch_timestamp" (JFloat now) survey_data in
      _ ← (if use_cache then _save_to_cache dowlknum (JObj survey_data)
           else mret tt);
      mret (JObj survey_data).

(** [for i, dowlknum in enumerate(dowlknums)] of the sequential branch;
    [n] is [len(dowlknums)]. *)
Fixpoint sequential_loop (n : nat) (items : list (nat * string))
    (delay : float) (use_cache : bool) (results : gmap string json)
    : M (gmap string json) :=
  match items with
  | [] => mret results
  | (i, dowlknum) :: rest =>
      survey_data ← get_fish_survey_summary dowlknum use_cache;
      let results := <[dowlknum := survey_data]> results in
      _ ← (if Z.of_nat i <? Z.of_nat n - 1 then time_sleep delay
           else mret tt);
      sequential_loop n rest delay use_cache results
  end.

(** A future: what its task returned, or the exception it raised. *)
Abbreviation future := (res (string * json)).

(** The pool runs the submitted tasks one after the other in
    [start_order], each to its end, and [as_completed] hands the futures
    over in [completion_order]; both are the scheduler's choice. *)
Record scheduler : Type := Scheduler {
  start_order : list string -> list string;
  completion_order : list (future * string) -> list (future * string)
}.

Definition fetch_single_lake (delay : float) (use_cache : bool)
    (dowlknum : string) : M (string * json) :=
  _ ← time_sleep delay;
  survey_data ← get_fish_survey_summary dowlknum use_cache;
  mret (dowlknum, survey_data).

(** [executor.submit(fetch_single_lake, dowlknum)], run: the future keeps
    the exception of a task that raises. *)
Definition submit (delay : float) (use_cache : bool) (dowlknum : string)
    : M (future * string) := fun w =>
  let '(r, w') := fetch_single_lake delay use_cache dowlknum w in
  (Ok (r, dowlknum), w').

Fixpoint run_tasks (delay : float) (use_cache : bool)
    (dowlknums : list string) : M (list (future * string)) :=
  match dowlknums with
  | [] => mret []
  | dowlknum :: rest =>
      f ← submit delay use_cache dowlknum;
      fs ← run_tasks delay use_cache rest;
      mret (f :: fs)
  end.

(** [for future in as_completed(future_to_dowlknum)] *)
Fixpoint collect (futures : list (future * string))
    (results : gmap string json) : gmap string json :=
  match futures with
  | [] => results
  | (Ok (dowlknum, survey_data), _) :: rest =>
      collect rest (<[dowlknum := survey_data]> results)
  | (Raise _, dowlknum) :: rest =>
      collect rest (<[dowlknum := JNull]> results)
  end.

(** [ThreadPoolExecutor(max_workers=max_workers)] *)
Definition ThreadPoolExecutor (max_workers : Z) : M unit :=
  if max_workers <=? 0
  then lift (raise ValueError "max_workers must be greater than 0")
  else mret tt.

Definition batch_fetch_fish_surveys_parallel (sch : scheduler)
    (dowlknums : list string) (max_workers : option Z) (delay : float)
    (use_cache : bool) : M (gmap string json) :=
  let max_workers :=
    match max_workers with
    | Some n => if n =? 0 then MAX_WORKERS else n
    | None => MAX_WORKERS
    end in
  _ ← ThreadPoolExecutor max_workers;
  futures ← run_tasks delay use_cache (start_order sch dowlknums);
  mret (collect (completion_order sch futures) ∅).

Definition batch_fetch_fish_surveys (sch : scheduler)
    (dowlknums : list string) (delay : float) (use_parallel : bool)
    (max_workers : option Z) (use_cache : bool) : M (gmap string json) :=
  _ ← (if use_cache then _ ← get_cache_stats; mret tt else mret tt);
  if use_parallel && (1 <? length dowlknums)%nat
  then batch_fetch_fish_surveys_parallel sch dowlknums max_workers delay
         use_cache
  else
    sequential_loop (length dowlknums)
      (zip (seq 0 (length dowlknums)) dowlknums) delay use_cache ∅.

(** ** RecordCache: [clear_cache] *)

(** [glob("fish_survey_*.json")]: the names of the cache files. *)
Definition cache_file_names (w : World) : list string :=
  map fst
    (filter (fun nf => is_cache_file (fst nf) = true)
       (map_to_list (cache_dir w))).

(** The world without the file [name]. *)
Definition remove_file (name : string) (w : World) : World :=
  mkWorld (clock w) (delete name (cache_dir w)) (readonly w) (unreadable w)
    (net w) (sent w) (slept w).

(** [cache_file.unlink()]; [locked] holds the files that the system
    refuses to delete. *)
Definition unlink (locked : gset string) (name : string) : M unit := fun w =>
  if bool_decide (name ∈ locked)
  then (raise IOError "Permission denied", w)
  else match cache_dir w !! name with
       | Some _ => (Ok tt, remove_file name w)
       | None => (raise IOError "No such file or directory", w)
       end.

Fixpoint unlink_all (locked : gset string) (cache_files : list string)
    : M unit :=
  match cache_files with
  | [] => mret tt
  | cache_file :: rest =>
      _ ← try_exceptM (unlink locked cache_file)
            [([IOError], fun _ => mret tt)];
      unlink_all locked rest
  end.

Definition clear_cache (locked : gset string) : M unit := fun w =>
  unlink_all locked (cache_file_names w) w.

(** ** Utilities ([utils.py]) *)

(** [f"lake_{dowlknum}.{extension}"] *)
Definition format_lake_filename (dowlknum extension : string) : string :=
  "lake_" +:+ dowlknum +:+ "." +:+ extension.

(** ** Vocabulary of the specification *)

(** A transient failure: a timeout, a connection error, or a status other
    than 200 and 404. *)
Definition transient (o : net_outcome) : bool :=
  match o with
  | Responds r => negb (status_code r =? 200) && negb (status_code r =? 404)
  | TimesOut | Fails => true
  end.

(** The delay before the next attempt: longer after a timeout. *)
Definition backoff_secs (o : net_outcome) : float :=
  match o with
  | TimesOut => 2%float
  | _ => 1%float
  end.

(** A permanent answer: 404, or 200 with a body that is not JSON. *)
Definition permanent_absence (o : net_outcome) : bool :=
  match o with
  | Responds r =>
      (status_code r =? 404) ||
      (status_code r =? 200) && bool_decide (body r = None)
  | _ => false
  end.

(** What a fetch leaves untouched: the cache directory, the write
    permissions, the network's script and the read permissions. *)
Definition same_store (w w' : World) : Prop :=
  cache_dir w' = cache_dir w /\ readonly w' = readonly w /\ net w' = net w /\
  unreadable w' = unreadable w.

(** The cache entry of [dowlknum], when its file exists. *)
Definition entry (dowlknum : string) (w : World) : option file :=
  cache_dir w !! _get_cache_file_path dowlknum.

(** An entry is fresh when its age does not exceed the TTL. *)
Definition fresh (now : float) (f : file) : bool :=
  negb (expired now (st_mtime f)).

(** The world without the entry of [dowlknum]. *)
Definition without_entry (dowlknum : string) (w : World) : World :=
  mkWorld (clock w) (delete (_get_cache_file_path dowlknum) (cache_dir w))
    (readonly w) (unreadable w) (net w) (sent w) (slept w).

(** The cache file of [dowlknum] can be opened for writing. *)
Definition writable (dowlknum : string) (w : World) : Prop :=
  _get_cache_file_path dowlknum ∉ readonly w.

(** The cache file of [dowlknum] can be opened for reading. *)
Definition readable (dowlknum : string) (w : World) : Prop :=
  _get_cache_file_path dowlknum ∉ unreadable w.

(** [json.load] raises on the file an exception that is neither a
    [json.JSONDecodeError] nor an [IOError]. *)
Definition escapes (f : file) : bool :=
  match content f with
  | NotUTF8 | TooDeep | HugeInt => true
  | Malformed | Document _ => false
  end.

(** The cache file of [dowlknum], if there is one, holds JSON or text
    that [json.load] rejects with [json.JSONDecodeError]. *)
Definition decodes (dowlknum : string) (w : World) : Prop :=
  forall f, entry dowlknum w = Some f -> escapes f = false.

(** Read at [now], an entry written at [mtime] is at most 24 hours old. *)
Definition within_ttl (now mtime : float) : bool :=
  PrimFloat.leb (now - mtime)%float 86400%float.

(** Read at [now], an entry written at [mtime] is more than 24 hours
    old. *)
Definition older_than_ttl (now mtime : float) : bool :=
  PrimFloat.ltb 86400%float (now - mtime)%float.

(** *** Candidate records

    A candidate record of the data model: a dictionary with a type tag, a
    date that is a string (or missing) and a list of catch entries (or
    none). *)
Definition well_formed_record (r : json) : bool :=
  match r with
  | JObj o =>
      match Py.dict_lookup "surveyDate" o with
      | None | Some (JStr _) => true
      | _ => false
      end &&
      match Py.dict_lookup "fishCatchSummaries" o with
      | None | Some JNull | Some (JArr _) => true
      | _ => false
      end
  | _ => false
  end.

Definition field (k : string) (r : json) : option json :=
  match r with
  | JObj o => Py.dict_lookup k o
  | _ => None
  end.

Definition date_of (r : json) : string :=
  match field "surveyDate" r with
  | Some (JStr s) => s
  | _ => ""
  end.

Definition catches_of (r : json) : list json :=
  match field "fishCatchSummaries" r with
  | Some (JArr l) => l
  | _ => []
  end.

(** The record has at least one catch entry. *)
Definition has_catch (r : json) : bool :=
  match catches_of r with
  | [] => false
  | _ => true
  end.

Definition has_type (ty : string) (r : json) : bool :=
  match field "surveyType" r with
  | Some (JStr s) => String.eqb s ty
  | _ => false
  end.

(** The records of type [ty] with at least one catch entry, in array
    order. *)
Definition candidates (ty : string) (surveys : list json) : list json :=
  List.filter (fun r => has_type ty r && has_catch r) surveys.


(** Most recent first: [r] goes behind the records dated later than it
    and before the others. *)
Fixpoint insert_by_date (r : json) (l : list json) : list json :=
  match l with
  | [] => [r]
  | y :: l' =>
      if String.ltb (date_of r) (date_of y) then y :: insert_by_date r l'
      else r :: y :: l'
  end.

Definition sort_by_date (l : list json) : list json :=
  fold_right insert_by_date [] l.

(** The selection as the specification words it: the most recent
    standard survey with catch entries; else the most recent targeted
    one; else the first record, in array order, with any catch entry;
    else none. *)
Definition selection (surveys : list json) : option json :=
  match sort_by_date (candidates "Standard Survey" surveys) with
  | s :: _ => Some s
  | [] =>
      match sort_by_date (candidates "Targeted Survey" surveys) with
      | s :: _ => Some s
      | [] => List.find has_catch surveys
      end
  end.

(** The records with their sort keys. *)
Definition dated (l : list json) : list (json * json) :=
  map (fun r => (JStr (date_of r), r)) l.

(** *** Species entries *)











(** *** The fields of a summary *)

(** The fields every summary has. *)
Definition summary_fields : list string :=
  ["survey_date"; "survey_method"; "survey_type"; "fish_species";
   "total_fish_caught"; "fetch_timestamp"].

Definition has_field (v : json) (k : string) : bool :=
  match field k v with
  | Some _ => true
  | None => false
  end.

Definition has_summary_fields (v : json) : bool :=
  forallb (has_field v) summary_fields.


(** *** Batches *)

(** Whatever the scheduler does, it runs and hands over each task once. *)
Definition fair (sch : scheduler) : Prop :=
  (forall l, Permutation (start_order sch l) l) /\
  (forall l, Permutation (completion_order sch l) l).

(** A delay that [time.sleep] takes. *)
Definition valid_delay (delay : float) : bool :=
  PrimFloat.leb 0 delay && negb (PrimFloat.ltb sleep_max delay).

(** A pool size that [ThreadPoolExecutor] takes: none given, or not
    negative (zero stands for the default). *)
Definition valid_workers (max_workers : option Z) : bool :=
  match max_workers with
  | Some n => 0 <=? n
  | None => true
  end.

(** The future of a task for [dowlknum] names that key when it returns. *)
Definition names_its_key (fk : future * string) : Prop :=
  match fst fk with
  | Ok (dowlknum, _) => dowlknum = snd fk
  | Raise _ => True
  end.

(** What resolving the keys [dowlknums] may do to the world: it sends
    requests for these keys only, at most [MAX_RETRIES] for each; it
    leaves the write permissions, the network's script and the cache files
    of all other keys alone, and the whole cache directory when the cache
    is not in use. *)
Definition footprint (dowlknums : list string) (use_cache : bool)
    (w w' : World) : Prop :=
  (exists requests,
     sent w' = (requests ++ sent w)%list /\
     (length requests <= length dowlknums * MAX_RETRIES)%nat /\
     Forall (fun dowlknum => dowlknum ∈ dowlknums) requests) /\
  readonly w' = readonly w /\ net w' = net w /\
  (forall name,
     (forall dowlknum, dowlknum ∈ dowlknums ->
        name <> _get_cache_file_path dowlknum) ->
     cache_dir w' !! name = cache_dir w !! name) /\
  (use_cache = false -> cache_dir w' = cache_dir w).

(** No cache read of a batch over [dowlknums] can raise: the cache is
    not in use, or the cache file of every requested key decodes. *)
Definition reads_return (dowlknums : list string) (use_cache : bool)
    (w : World) : Prop :=
  use_cache = false \/
  forall dowlknum, dowlknum ∈ dowlknums -> decodes dowlknum w.

(** Every entry of the result map is a summary, none is [None]. *)
Definition all_summaries (results : gmap string json) : Prop :=
  forall dowlknum v, results !! dowlknum = Some v -> is_None v = false.

(** Every entry of the result map is [None]. *)
Definition all_None (results : gmap string json) : Prop :=
  forall dowlknum v, results !! dowlknum = Some v -> v = JNull.

(** The future of a task that returned a summary for its key. *)
Definition returned (fk : future * string) : Prop :=
  exists v, fst fk = Ok (snd fk, v) /\ is_None v = false.

(** The future of a task that raised. *)
Definition raised (fk : future * string) : Prop :=
  exists e, fst fk = Raise e.

(** The cache file of [dowlknum] holds the summary [v]. *)
Definition holds (w : World) (dowlknum : string) (v : json) : Prop :=
  exists f, entry dowlknum w = Some f /\ content f = Document v.



(** *** Auxiliary notions *)

(** The summary of a fetched payload, stamped with the key and the time. *)
Definition stamped (dowlknum : string) (now : float) (parsed_data : dict)
    : json :=
  JObj (Py.dict_set "fetch_timestamp" (JFloat now)
          (Py.dict_set "dowlknum" (JStr dowlknum) parsed_data)).

(** The world with another cache directory. *)
Definition with_cache (c : gmap string file) (w : World) : World :=
  mkWorld (clock w) c (readonly w) (unreadable w) (net w) (sent w)
    (slept w).

(** The keys of a dictionary, in order. *)
Definition keys (o : dict) : list string := map fst o.


(** Every record of the list is well formed. *)
Definition all_well_formed (l : list json) : Prop :=
  Forall (fun r => well_formed_record r = true) l.


(** ** Sample inputs *)

Definition catch_entry (species : string) (count weight : json) : json :=
  JObj [("species", JStr species); ("totalCatch", count);
        ("averageWeight", weight); ("gear", JStr "Gill net")].

Definition survey (ty date : string) (catches : list json) : json :=
  JObj [("surveyType", JStr ty); ("surveyDate", JStr date);
        ("surveyMethod", JStr "Netting"); ("fishCatchSummaries", JArr catches)].

Definition payload_of (surveys : list json) : json :=
  JObj [("status", JStr "SUCCESS"); ("result", JObj [("surveys", JArr surveys)])].

Definition survey_2020 : json :=
  survey "Standard Survey" "2020-01-01" [catch_entry "Northern Pike" (JInt 3) JNull].

Definition survey_2022 : json :=
  survey "Standard Survey" "2022-06-15"
    [catch_entry "Walleye" (JInt 4) (JStr "12.5");
     catch_entry "Yellow Perch" (JInt 5) (JStr "n/a")].

Definition two_standard_payload : json := payload_of [survey_2020; survey_2022].

(** A payload whose only catch entry has the count ["many"]. *)
Definition bad_count_payload : json :=
  payload_of
    [survey "Standard Survey" "2021-07-04"
       [catch_entry "Walleye" (JStr "many") JNull]].


(** A world with an empty cache, nothing sent or slept, and the network
    script [script]. *)
Definition fresh_world (script : string -> nat -> net_outcome) : World :=
  mkWorld 1700000000%float ∅ ∅ ∅ script [] [].

(** The same, with a cache file for lake 27000100 that cannot be
    written. *)
Definition readonly_world (script : string -> nat -> net_outcome) : World :=
  mkWorld 1700000000%float ∅ {[ _get_cache_file_path "27000100" ]} ∅
    script [] [].

(** A world whose cache holds, for lake 27000100, a file written 1000
    seconds ago whose bytes are not UTF-8 text. *)
Definition corrupt_world (script : string -> nat -> net_outcome) : World :=
  mkWorld 1700000000%float
    {[ _get_cache_file_path "27000100" := File 1699999000%float NotUTF8 ]}
    ∅ ∅ script [] [].

(** A world whose cache holds, for lake 27000100, a sentinel written
    200000 seconds ago in a file that can be written and cannot be read
    (mode 0200). *)
Definition writeonly_world (script : string -> nat -> net_outcome) : World :=
  mkWorld 1700000000%float
    {[ _get_cache_file_path "27000100" :=
         File 1699800000%float
           (Document (JObj (no_data_summary "27000100" 1699800000%float))) ]}
    ∅ {[ _get_cache_file_path "27000100" ]} script [] [].

(** A world whose cache holds, for lake 27000100, a file last written at
    [mtime] with the content [c]; the clock shows 1700000000. *)
Definition stored_world (mtime : float) (c : file_content)
    (script : string -> nat -> net_outcome) : World :=
  mkWorld 1700000000%float
    {[ _get_cache_file_path "27000100" := File mtime c ]} ∅ ∅ script [] [].

Definition payload_script (dowlknum : string) (n : nat) : net_outcome :=
  Responds (Response 200 (Some two_standard_payload)).


(** Tasks start in submission order and complete in the reverse order. *)
Definition lifo : scheduler := Scheduler (fun l => l) (@rev _).

Definition sample_keys : list string := ["27000100"; "27013300"; "48000200"].

(** A timeout, then a 503, then the payload. *)
Definition flaky_script (dowlknum : string) (n : nat) : net_outcome :=
  match n with
  | O => TimesOut
  | S O => Responds (Response 503 None)
  | _ => Responds (Response 200 (Some two_standard_payload))
  end.

Definition not_found_script (dowlknum : string) (n : nat) : net_outcome :=
  Responds (Response 404 None).

(** * Properties *)

(** ** RemoteFetcher *)

Ltac unfold_M :=
  cbv [mbind mret M_bind M_ret lift try_exceptM res_bind res_ret try_except].

Lemma backoff_continue attempt o w :
  (S attempt < MAX_RETRIES)%nat ->
  backoff attempt (backoff_secs o) w = (Ok Continue, advance (backoff_secs o) w).
Proof.
  intros Hlt. unfold backoff.
  replace (Z.of_nat attempt <? Z.of_nat MAX_RETRIES - 1) with true
    by (symmetry; apply Z.ltb_lt; lia).
  destruct o as [r| |]; reflexivity.
Qed.

Lemma backoff_last attempt secs w :
  (MAX_RETRIES <= S attempt)%nat ->
  backoff attempt secs w = (Ok (Return JNull), w).
Proof.
  intros Hge. unfold backoff.
  replace (Z.of_nat attempt <? Z.of_nat MAX_RETRIES - 1) with false
    by (symmetry; apply Z.ltb_ge; lia).
  reflexivity.
Qed.

Lemma fetch_attempt_transient dowlknum attempt w :
  transient (net w dowlknum (length (sent w))) = true ->
  fetch_attempt dowlknum attempt w =
  backoff attempt (backoff_secs (net w dowlknum (length (sent w))))
    (log_request dowlknum w).
Proof.
  intros Ht. unfold fetch_attempt, requests_get. unfold_M.
  destruct (net w dowlknum (length (sent w))) as [r| |]; simpl in *.
  - apply andb_true_iff in Ht as [H200 H404].
    apply negb_true_iff in H200, H404. rewrite H200, H404.
    unfold backoff. unfold_M.
    destruct (Z.of_nat attempt <? Z.of_nat MAX_RETRIES - 1); reflexivity.
  - reflexivity.
  - reflexivity.
Qed.

Lemma fetch_attempt_success dowlknum attempt w data :
  net w dowlknum (length (sent w)) = Responds (Response 200 (Some data)) ->
  fetch_attempt dowlknum attempt w = (Ok (Return data), log_request dowlknum w).
Proof.
  intros Hnet. unfold fetch_attempt, requests_get. unfold_M.
  rewrite Hnet. reflexivity.
Qed.

Lemma fetch_attempt_permanent dowlknum attempt w :
  permanent_absence (net w dowlknum (length (sent w))) = true ->
  fetch_attempt dowlknum attempt w = (Ok (Return JNull), log_request dowlknum w).
Proof.
  intros Hp. unfold fetch_attempt, requests_get. unfold_M.
  destruct (net w dowlknum (length (sent w))) as [[status b]| |];
    simpl in *; try discriminate.
  destruct (status =? 200) eqn:H200.
  - apply Z.eqb_eq in H200. subst status. simpl in Hp.
    apply bool_decide_eq_true in Hp. subst b. reflexivity.
  - rewrite orb_false_r in Hp. rewrite Hp. reflexivity.
Qed.

(** An answer is a success, a permanent absence or a transient failure. *)
Lemma net_outcome_cases (o : net_outcome) :
  (exists data, o = Responds (Response 200 (Some data))) \/
  permanent_absence o = true \/ transient o = true.
Proof.
  destruct o as [[status [data|]]| |]; simpl; auto.
  - destruct (status =? 200) eqn:H200.
    + apply Z.eqb_eq in H200. subst. left. eauto.
    + destruct (status =? 404); simpl; auto.
  - destruct (status =? 200), (status =? 404); simpl; auto.
Qed.

Lemma fetch_loop_transient dowlknum attempt rest w :
  transient (net w dowlknum (length (sent w))) = true ->
  (S attempt < MAX_RETRIES)%nat ->
  fetch_loop dowlknum (attempt :: rest) w =
  fetch_loop dowlknum rest
    (advance (backoff_secs (net w dowlknum (length (sent w))))
       (log_request dowlknum w)).
Proof.
  intros Ht Hlt. cbn [fetch_loop]. unfold mbind at 1, M_bind.
  rewrite fetch_attempt_transient, backoff_continue by assumption.
  reflexivity.
Qed.

Lemma fetch_loop_transient_last dowlknum attempt rest w :
  transient (net w dowlknum (length (sent w))) = true ->
  (MAX_RETRIES <= S attempt)%nat ->
  fetch_loop dowlknum (attempt :: rest) w = (Ok JNull, log_request dowlknum w).
Proof.
  intros Ht Hge. cbn [fetch_loop]. unfold mbind at 1, M_bind.
  rewrite fetch_attempt_transient, backoff_last by assumption.
  reflexivity.
Qed.

Lemma fetch_loop_success dowlknum attempt rest w data :
  net w dowlknum (length (sent w)) = Responds (Response 200 (Some data)) ->
  fetch_loop dowlknum (attempt :: rest) w = (Ok data, log_request dowlknum w).
Proof.
  intros Hnet. cbn [fetch_loop]. unfold mbind at 1, M_bind.
  rewrite (fetch_attempt_success _ _ _ _ Hnet). reflexivity.
Qed.

Lemma fetch_loop_permanent dowlknum attempt rest w :
  permanent_absence (net w dowlknum (length (sent w))) = true ->
  fetch_loop dowlknum (attempt :: rest) w = (Ok JNull, log_request dowlknum w).
Proof.
  intros Hp. cbn [fetch_loop]. unfold mbind at 1, M_bind.
  rewrite fetch_attempt_permanent by assumption. reflexivity.
Qed.

Lemma same_store_refl w : same_store w w.
Proof. repeat split. Qed.

Lemma same_store_trans w1 w2 w3 :
  same_store w1 w2 -> same_store w2 w3 -> same_store w1 w3.
Proof.
  unfold same_store. intros (?&?&?&?) (?&?&?&?). repeat split; congruence.
Qed.

(** A fetch never raises; it makes at least one request and at most one
    per attempt, and touches nothing but the clock and the logs. *)
Lemma fetch_loop_total dowlknum attempts : forall w,
  exists data w' n,
    fetch_loop dowlknum attempts w = (Ok data, w') /\
    same_store w w' /\
    sent w' = (repeat dowlknum n ++ sent w)%list /\
    (n <= length attempts)%nat /\
    (attempts <> [] -> 1 <= n)%nat.
Proof.
  induction attempts as [|attempt rest IH]; intros w.
  - exists JNull, w, 0%nat.
    repeat split; [apply Nat.le_refl | congruence].
  - destruct (net_outcome_cases (net w dowlknum (length (sent w))))
      as [[data Hs] | [Hp | Ht]].
    + rewrite (fetch_loop_success _ _ _ _ _ Hs).
      eexists _, _, 1%nat. repeat split; simpl; lia.
    + rewrite (fetch_loop_permanent _ _ _ _ Hp).
      eexists _, _, 1%nat. repeat split; simpl; lia.
    + destruct (lt_dec (S attempt) MAX_RETRIES) as [Hlt | Hge].
      * rewrite (fetch_loop_transient _ _ _ _ Ht Hlt).
        destruct (IH (advance (backoff_secs (net w dowlknum (length (sent w))))
                        (log_request dowlknum w)))
          as (data & w' & n & -> & Hs & Hsent & Hle & _).
        exists data, w', (S n). split; [reflexivity |].
        split; [eapply same_store_trans; [| exact Hs]; repeat split |].
        split; [| simpl; lia].
        rewrite Hsent.
        change (repeat dowlknum (S n)) with (dowlknum :: repeat dowlknum n).
        rewrite repeat_cons, <- app_assoc. reflexivity.
      * rewrite (fetch_loop_transient_last _ _ _ _ Ht) by lia.
        eexists _, _, 1%nat. repeat split; simpl; lia.
Qed.

Lemma fetch_fish_survey_data_total dowlknum w :
  exists data w' n,
    fetch_fish_survey_data dowlknum w = (Ok data, w') /\
    same_store w w' /\
    sent w' = (repeat dowlknum n ++ sent w)%list /\
    (1 <= n <= MAX_RETRIES)%nat.
Proof.
  destruct (fetch_loop_total dowlknum (seq 0 MAX_RETRIES) w)
    as (data & w' & n & H & Hs & Hsent & Hle & Hge).
  exists data, w', n.
  split; [exact H |]. split; [exact Hs |]. split; [exact Hsent |].
  split; [apply Hge; discriminate | rewrite length_seq in Hle; exact Hle].
Qed.

(** C4. With [MAX_RETRIES = 3], a fetch whose first two attempts fail
    transiently makes three requests in all: it returns the decoded
    payload when the third answers 200 with a JSON body, and absent when
    the third fails transiently too. It sleeps between the attempts and not
    after the last, one second after a generic failure and two after a
    timeout. *)
Theorem fetch_retries_transient_failures dowlknum w :
  let n := length (sent w) in
  let o1 := net w dowlknum n in
  let o2 := net w dowlknum (S n) in
  let o3 := net w dowlknum (S (S n)) in
  let w' := log_request dowlknum (advance (backoff_secs o2)
              (log_request dowlknum (advance (backoff_secs o1)
                 (log_request dowlknum w)))) in
  transient o1 = true ->
  transient o2 = true ->
  (forall data, o3 = Responds (Response 200 (Some data)) ->
     fetch_fish_survey_data dowlknum w = (Ok data, w')) /\
  (transient o3 = true ->
     fetch_fish_survey_data dowlknum w = (Ok JNull, w')) /\
  sent w' = (repeat dowlknum MAX_RETRIES ++ sent w)%list /\
  slept w' = (backoff_secs o2 :: backoff_secs o1 :: slept w) /\
  backoff_secs TimesOut = 2%float /\
  backoff_secs Fails = 1%float /\
  (forall r, backoff_secs (Responds r) = 1%float).
Proof.
  intros n o1 o2 o3 w' H1 H2.
  assert (Hloop : fetch_fish_survey_data dowlknum w =
                  fetch_loop dowlknum [2%nat]
                    (advance (backoff_secs o2)
                       (log_request dowlknum (advance (backoff_secs o1)
                          (log_request dowlknum w))))).
  { unfold fetch_fish_survey_data. cbn [seq MAX_RETRIES].
    rewrite fetch_loop_transient by (assumption || (unfold MAX_RETRIES; lia)).
    rewrite fetch_loop_transient by (assumption || (unfold MAX_RETRIES; lia)).
    reflexivity. }
  repeat split.
  - intros data H3. rewrite Hloop. apply fetch_loop_success. exact H3.
  - intros H3. rewrite Hloop. apply fetch_loop_transient_last.
    + exact H3.
    + unfold MAX_RETRIES. lia.
Qed.


(** C4 on a script that times out, answers 503 and then answers 200. *)
Lemma fetch_retries_transient_failures_witness :
  fetch_fish_survey_data "27000100" (fresh_world flaky_script) =
  (Ok two_standard_payload,
   mkWorld 1700000003%float ∅ ∅ ∅ flaky_script
     ["27000100"; "27000100"; "27000100"] [1%float; 2%float]).
Proof.
  apply (proj1 (fetch_retries_transient_failures "27000100"
                  (fresh_world flaky_script) eq_refl eq_refl)).
  reflexivity.
Defined.


(** ** RecordCache *)

Lemma SFcompare_antisym a b :
  SFcompare b a = option_map CompOpp (SFcompare a b).
Proof.
  destruct a as [sa|sa| |sa ma ea], b as [sb|sb| |sb mb eb];
    unfold SFcompare; cbn [option_map CompOpp];
    try reflexivity;
    try (destruct sa; reflexivity); try (destruct sb; reflexivity);
    try (destruct sa, sb; reflexivity).
  pose proof (Pos.compare_cont_antisym mb ma Eq) as H. cbn [CompOpp] in H.
  destruct sa, sb; try reflexivity;
    rewrite (Z.compare_antisym ea eb); destruct (ea ?= eb)%Z;
    cbn [option_map CompOpp]; try reflexivity;
    rewrite <- H; destruct (Pos.compare_cont Eq mb ma); reflexivity.
Qed.

Lemma leb_not_ltb (x y : float) :
  PrimFloat.leb x y = true -> PrimFloat.ltb y x = false.
Proof.
  rewrite leb_spec, ltb_spec. unfold SFleb, SFltb.
  rewrite (SFcompare_antisym (Prim2SF x) (Prim2SF y)).
  destruct (SFcompare (Prim2SF x) (Prim2SF y)) as [[| |]|]; cbn; congruence.
Qed.

Lemma sub_diag_cases (c : float) :
  Prim2SF (c - c) = S754_zero false \/ Prim2SF (c - c) = S754_nan.
Proof.
  rewrite sub_spec. unfold SF64sub.
  destruct (Prim2SF c) as [s|s| |s m e] eqn:E.
  - destruct s; cbn; auto.
  - destruct s; cbn; auto.
  - cbn. auto.
  - left. unfold SFsub. rewrite Z.sub_diag. reflexivity.
Qed.

Lemma just_written_not_expired (now : float) : expired now now = false.
Proof.
  unfold expired. rewrite ltb_spec.
  destruct (sub_diag_cases now) as [-> | ->]; reflexivity.
Qed.

Lemma within_ttl_fresh now f :
  within_ttl now (st_mtime f) = true -> fresh now f = true.
Proof.
  unfold within_ttl, fresh, expired, TTL. intros H.
  rewrite (leb_not_ltb _ _ H). reflexivity.
Qed.

Lemma older_than_ttl_expired now f :
  older_than_ttl now (st_mtime f) = true -> fresh now f = false.
Proof.
  unfold older_than_ttl, fresh, expired, TTL. intros ->. reflexivity.
Qed.

Lemma load_missing dowlknum w :
  entry dowlknum w = None -> _load_from_cache dowlknum w = (Ok JNull, w).
Proof. unfold entry, _load_from_cache. intros ->. reflexivity. Qed.

Lemma load_expired dowlknum w f :
  entry dowlknum w = Some f -> fresh (clock w) f = false ->
  _load_from_cache dowlknum w = (Ok JNull, w).
Proof.
  unfold entry, _load_from_cache, fresh. intros -> He.
  apply negb_false_iff in He. unfold_M. unfold time_time. rewrite He.
  reflexivity.
Qed.

Lemma load_unreadable dowlknum w f :
  entry dowlknum w = Some f -> fresh (clock w) f = true ->
  ~ readable dowlknum w ->
  _load_from_cache dowlknum w = (Ok JNull, w).
Proof.
  unfold entry, _load_from_cache, fresh, readable. intros -> He Hr.
  apply negb_true_iff in He. unfold_M. unfold time_time. rewrite He.
  unfold read_json. rewrite bool_decide_eq_true_2; [reflexivity |].
  destruct (decide (_get_cache_file_path dowlknum ∈ unreadable w)); tauto.
Qed.

Lemma load_fresh dowlknum w f :
  entry dowlknum w = Some f -> fresh (clock w) f = true ->
  readable dowlknum w -> escapes f = false ->
  _load_from_cache dowlknum w =
  (Ok match content f with Document d => d | _ => JNull end, w).
Proof.
  unfold entry, _load_from_cache, fresh, readable, escapes.
  intros -> He Hr Hesc.
  apply negb_true_iff in He. unfold_M. unfold time_time. rewrite He.
  unfold read_json, json_load. rewrite bool_decide_eq_false_2 by exact Hr.
  destruct (content f); try discriminate; reflexivity.
Qed.

(** The exceptions of [json.load] that the cache read lets through. *)
Lemma load_escapes dowlknum w f :
  entry dowlknum w = Some f -> fresh (clock w) f = true ->
  readable dowlknum w -> escapes f = true ->
  exists e,
    _load_from_cache dowlknum w = (Raise e, w) /\
    json_load f = Raise e /\
    (exn_cls e = UnicodeDecodeError \/ exn_cls e = RecursionError \/
     exn_cls e = ValueError).
Proof.
  unfold entry, _load_from_cache, fresh, readable, escapes.
  intros -> He Hr Hesc.
  apply negb_true_iff in He. unfold_M. unfold time_time. rewrite He.
  unfold read_json, json_load. rewrite bool_decide_eq_false_2 by exact Hr.
  destruct (content f); try discriminate; eexists; repeat split; auto.
Qed.

(** The cache read changes nothing; it returns, or it raises what
    [json.load] raised on a fresh, readable file. *)
Lemma load_cases dowlknum w :
  (exists v, _load_from_cache dowlknum w = (Ok v, w)) \/
  (exists f e,
     entry dowlknum w = Some f /\ fresh (clock w) f = true /\
     readable dowlknum w /\ escapes f = true /\
     _load_from_cache dowlknum w = (Raise e, w)).
Proof.
  destruct (entry dowlknum w) as [f|] eqn:E.
  - destruct (fresh (clock w) f) eqn:F.
    + destruct (decide (readable dowlknum w)) as [Hr | Hr].
      * destruct (escapes f) eqn:Hesc.
        -- destruct (load_escapes _ _ _ E F Hr Hesc) as (e & H & _).
           right. exists f, e. auto.
        -- rewrite (load_fresh _ _ _ E F Hr Hesc). eauto.
      * rewrite (load_unreadable _ _ _ E F Hr). eauto.
    + rewrite (load_expired _ _ _ E F). eauto.
  - rewrite (load_missing _ _ E). eauto.
Qed.

(** On a cache file that decodes, the cache read returns. *)
Lemma load_total dowlknum w :
  decodes dowlknum w -> exists v, _load_from_cache dowlknum w = (Ok v, w).
Proof.
  intros Hd. destruct (load_cases dowlknum w)
    as [H | (f & e & E & _ & _ & Hesc & _)]; [exact H |].
  rewrite (Hd f E) in Hesc. discriminate.
Qed.

Lemma save_writable dowlknum data w :
  data <> JNull -> writable dowlknum w ->
  _save_to_cache dowlknum data w =
  (Ok tt, store (_get_cache_file_path dowlknum) data w).
Proof.
  intros Hd Hw. unfold _save_to_cache, write_json.
  destruct data; try congruence; unfold_M;
    rewrite bool_decide_eq_false_2 by exact Hw; reflexivity.
Qed.

Lemma save_readonly dowlknum data w :
  ~ writable dowlknum w -> _save_to_cache dowlknum data w = (Ok tt, w).
Proof.
  intros Hw. unfold _save_to_cache, write_json.
  assert (Hin : _get_cache_file_path dowlknum ∈ readonly w).
  { unfold writable in Hw.
    destruct (decide (_get_cache_file_path dowlknum ∈ readonly w)); tauto. }
  destruct data; try reflexivity; unfold_M;
    rewrite bool_decide_eq_true_2 by exact Hin; reflexivity.
Qed.

(** Writing the cache never raises; it changes the cache directory at
    most. *)
Lemma save_total dowlknum data w :
  exists w', _save_to_cache dowlknum data w = (Ok tt, w') /\
             sent w' = sent w /\ clock w' = clock w /\ net w' = net w /\
             readonly w' = readonly w /\ slept w' = slept w.
Proof.
  destruct (decide (writable dowlknum w)) as [Hw | Hw].
  - assert (Hd : data = JNull \/ data <> JNull)
      by (destruct data; (left; reflexivity) || (right; discriminate)).
    destruct Hd as [-> | Hd].
    + exists w. repeat split.
    + rewrite (save_writable _ _ _ Hd Hw). eexists. repeat split.
  - rewrite (save_readonly _ _ _ Hw). exists w. repeat split.
Qed.

(** ** RecordParser: totality *)

Lemma subclass_Exception c : subclass c Exception = true.
Proof. destruct c; reflexivity. Qed.

Lemma parse_fish_survey_data_unfold raw_data :
  parse_fish_survey_data raw_data =
  match parse_body raw_data with
  | Ok parsed_data => Ok parsed_data
  | Raise e => Ok (parse_error_summary e)
  end.
Proof.
  unfold parse_fish_survey_data, try_except.
  destruct (parse_body raw_data) as [s|e]; [reflexivity |].
  cbn [find_handler existsb]. rewrite subclass_Exception. reflexivity.
Qed.

Lemma parse_fish_survey_data_total raw_data :
  exists parsed_data, parse_fish_survey_data raw_data = Ok parsed_data.
Proof.
  rewrite parse_fish_survey_data_unfold.
  destruct (parse_body raw_data); eauto.
Qed.

(** ** Per-key resolution *)

Lemma get_hit dowlknum w cached_data :
  _load_from_cache dowlknum w = (Ok cached_data, w) ->
  is_None cached_data = false ->
  get_fish_survey_summary dowlknum true w = (Ok cached_data, w).
Proof.
  intros Hload Hn. unfold get_fish_survey_summary.
  unfold mbind at 1, M_bind. rewrite Hload. cbn [andb]. rewrite Hn.
  reflexivity.
Qed.

Lemma get_miss_absent dowlknum use_cache w w1 :
  (use_cache = true -> _load_from_cache dowlknum w = (Ok JNull, w)) ->
  fetch_fish_survey_data dowlknum w = (Ok JNull, w1) ->
  get_fish_survey_summary dowlknum use_cache w =
  (Ok (JObj (no_data_summary dowlknum (clock w1))),
   if use_cache
   then snd (_save_to_cache dowlknum
               (JObj (no_data_summary dowlknum (clock w1))) w1)
   else w1).
Proof.
  intros Hload Hfetch. unfold get_fish_survey_summary.
  unfold mbind at 1, M_bind.
  assert (Hc : (if use_cache then _load_from_cache dowlknum else mret JNull) w
               = (Ok JNull, w)).
  { destruct use_cache; [apply Hload; reflexivity | reflexivity]. }
  rewrite Hc. cbn [is_None negb]. rewrite andb_false_r.
  unfold mbind at 1, M_bind. rewrite Hfetch. cbn [is_None].
  unfold mbind at 1, M_bind. unfold time_time at 1.
  destruct use_cache.
  - unfold mbind, M_bind.
    destruct (save_total dowlknum (JObj (no_data_summary dowlknum (clock w1))) w1)
      as (w2 & -> & _). reflexivity.
  - reflexivity.
Qed.

Lemma get_miss_payload dowlknum use_cache w w1 raw_data parsed_data :
  (use_cache = true -> _load_from_cache dowlknum w = (Ok JNull, w)) ->
  fetch_fish_survey_data dowlknum w = (Ok raw_data, w1) ->
  is_None raw_data = false ->
  parse_fish_survey_data raw_data = Ok parsed_data ->
  get_fish_survey_summary dowlknum use_cache w =
  (Ok (stamped dowlknum (clock w1) parsed_data),
   if use_cache
   then snd (_save_to_cache dowlknum
               (stamped dowlknum (clock w1) parsed_data) w1)
   else w1).
Proof.
  intros Hload Hfetch Hn Hparse. unfold get_fish_survey_summary.
  unfold mbind at 1, M_bind.
  assert (Hc : (if use_cache then _load_from_cache dowlknum else mret JNull) w
               = (Ok JNull, w)).
  { destruct use_cache; [apply Hload; reflexivity | reflexivity]. }
  rewrite Hc. cbn [is_None negb]. rewrite andb_false_r.
  unfold mbind at 1, M_bind. rewrite Hfetch, Hn.
  unfold mbind at 1, M_bind. unfold lift at 1. rewrite Hparse.
  unfold mbind at 1, M_bind. unfold time_time at 1.
  destruct use_cache.
  - unfold mbind, M_bind. fold (stamped dowlknum (clock w1) parsed_data).
    destruct (save_total dowlknum (stamped dowlknum (clock w1) parsed_data) w1)
      as (w2 & -> & _). reflexivity.
  - reflexivity.
Qed.

(** A fetch neither reads nor writes the cache directory. *)
Lemma fetch_loop_with_cache dowlknum c attempts : forall w data w',
  fetch_loop dowlknum attempts w = (Ok data, w') ->
  fetch_loop dowlknum attempts (with_cache c w) = (Ok data, with_cache c w').
Proof.
  induction attempts as [|attempt rest IH]; intros w data w' H.
  - cbn in *. inversion H. reflexivity.
  - destruct (net_outcome_cases (net w dowlknum (length (sent w))))
      as [[d Hs] | [Hp | Ht]].
    + rewrite (fetch_loop_success _ _ _ _ _ Hs) in H. inversion H; subst.
      apply (fetch_loop_success dowlknum attempt rest (with_cache c w)).
      exact Hs.
    + rewrite (fetch_loop_permanent _ _ _ _ Hp) in H. inversion H; subst.
      apply (fetch_loop_permanent dowlknum attempt rest (with_cache c w)).
      exact Hp.
    + destruct (lt_dec (S attempt) MAX_RETRIES) as [Hlt | Hge].
      * rewrite (fetch_loop_transient _ _ _ _ Ht Hlt) in H.
        rewrite (fetch_loop_transient dowlknum attempt rest (with_cache c w))
          by assumption.
        apply (IH _ _ _ H).
      * rewrite (fetch_loop_transient_last _ _ _ _ Ht) in H by lia.
        inversion H; subst.
        apply (fetch_loop_transient_last dowlknum attempt rest (with_cache c w));
          [exact Ht | lia].
Qed.

(** A resolution that finds no usable entry fetches, and returns what the
    fetch path returns; its world differs from the fetch's in the cache
    directory only. *)
Lemma get_miss dowlknum use_cache w :
  (use_cache = true -> _load_from_cache dowlknum w = (Ok JNull, w)) ->
  exists raw_data w1 n summary,
    fetch_fish_survey_data dowlknum w = (Ok raw_data, w1) /\
    same_store w w1 /\
    sent w1 = (repeat dowlknum n ++ sent w)%list /\
    (1 <= n <= MAX_RETRIES)%nat /\
    (summary = JObj (no_data_summary dowlknum (clock w1)) /\ raw_data = JNull \/
     exists parsed_data,
       parse_fish_survey_data raw_data = Ok parsed_data /\
       is_None raw_data = false /\
       summary = stamped dowlknum (clock w1) parsed_data) /\
    get_fish_survey_summary dowlknum use_cache w =
    (Ok summary,
     if use_cache then snd (_save_to_cache dowlknum summary w1) else w1).
Proof.
  intros Hload.
  destruct (fetch_fish_survey_data_total dowlknum w)
    as (raw_data & w1 & n & Hfetch & Hs & Hsent & Hn).
  destruct (is_None raw_data) eqn:Hnone.
  - assert (raw_data = JNull) as -> by (destruct raw_data; simpl in *; congruence).
    exists JNull, w1, n, (JObj (no_data_summary dowlknum (clock w1))).
    split; [exact Hfetch |]. split; [exact Hs |]. split; [exact Hsent |].
    split; [exact Hn |]. split; [left; split; reflexivity |].
    apply get_miss_absent; assumption.
  - destruct (parse_fish_survey_data_total raw_data) as [parsed_data Hparse].
    exists raw_data, w1, n, (stamped dowlknum (clock w1) parsed_data).
    split; [exact Hfetch |]. split; [exact Hs |]. split; [exact Hsent |].
    split; [exact Hn |]. split; [right; eauto |].
    apply (get_miss_payload _ _ _ _ raw_data); assumption.
Qed.

Lemma load_without_entry dowlknum w :
  _load_from_cache dowlknum (without_entry dowlknum w) =
  (Ok JNull, without_entry dowlknum w).
Proof.
  apply load_missing. unfold entry, without_entry. cbn [cache_dir].
  apply lookup_delete_eq.
Qed.

(** An entry that the cache read gives up on is resolved as a missing one
    is: the same summary comes back, after the same requests. *)
Lemma get_unusable_entry_like_missing dowlknum w :
  _load_from_cache dowlknum w = (Ok JNull, w) ->
  exists summary w' w'' n,
    get_fish_survey_summary dowlknum true w = (Ok summary, w') /\
    get_fish_survey_summary dowlknum true (without_entry dowlknum w) =
      (Ok summary, w'') /\
    sent w' = (repeat dowlknum n ++ sent w)%list /\
    sent w'' = sent w' /\
    (1 <= n <= MAX_RETRIES)%nat.
Proof.
  intros Hload.
  destruct (fetch_fish_survey_data_total dowlknum w)
    as (raw_data & w1 & n & Hfetch & Hs & Hsent & Hn).
  pose proof (fetch_loop_with_cache dowlknum
                (delete (_get_cache_file_path dowlknum) (cache_dir w))
                _ _ _ _ Hfetch) as Hfetch'.
  change (with_cache _ w) with (without_entry dowlknum w) in Hfetch'.
  fold (fetch_fish_survey_data dowlknum (without_entry dowlknum w)) in Hfetch'.
  set (c := delete (_get_cache_file_path dowlknum) (cache_dir w)) in *.
  assert (Hsave : forall data w0, sent (snd (_save_to_cache dowlknum data w0))
                                  = sent w0).
  { intros data w0. destruct (save_total dowlknum data w0) as (w2 & -> & E & _).
    exact E. }
  destruct (is_None raw_data) eqn:Hnone.
  - assert (raw_data = JNull) as ->
      by (destruct raw_data; simpl in *; congruence).
    eexists _, _, _, n.
    split; [apply (get_miss_absent dowlknum true w w1); auto |].
    split; [apply (get_miss_absent dowlknum true _ (with_cache c w1));
            [intros _; apply load_without_entry | exact Hfetch'] |].
    cbn [clock with_cache]. rewrite !Hsave. cbn [sent with_cache].
    repeat split; try assumption; tauto.
  - destruct (parse_fish_survey_data_total raw_data) as [parsed_data Hparse].
    eexists _, _, _, n.
    split; [apply (get_miss_payload dowlknum true w w1 raw_data parsed_data);
            auto |].
    split; [apply (get_miss_payload dowlknum true _ (with_cache c w1)
                     raw_data parsed_data);
            [intros _; apply load_without_entry | exact Hfetch' | exact Hnone
            | exact Hparse] |].
    cbn [clock with_cache]. rewrite !Hsave. cbn [sent with_cache].
    repeat split; try assumption; tauto.
Qed.

(** C6, at the input on which it fails. The cache file of lake 27000100
    is 1000 seconds old and its bytes are not UTF-8 text: [json.load]
    raises [UnicodeDecodeError], which is neither a [json.JSONDecodeError]
    nor an [IOError], so the cache read raises it to its caller, and the
    resolution of the key raises it too, without any request. *)
Theorem cache_read_raises_on_invalid_utf8 :
  exists e,
    exn_cls e = UnicodeDecodeError /\
    _load_from_cache "27000100" (corrupt_world not_found_script) =
      (Raise e, corrupt_world not_found_script) /\
    get_fish_survey_summary "27000100" true (corrupt_world not_found_script) =
      (Raise e, corrupt_world not_found_script) /\
    within_ttl (clock (corrupt_world not_found_script)) 1699999000 = true.
Proof.
  eexists. split; [| split; [| split]];
    [| vm_compute; reflexivity | vm_compute; reflexivity | reflexivity].
  reflexivity.
Qed.

(** ** RecordParser: the shape of what it returns *)

Lemma bind_Ok_inv {A B} (m : res A) (f : A -> res B) (b : B) :
  (x ← m; f x) = Ok b -> exists a, m = Ok a /\ f a = Ok b.
Proof. destruct m as [a|e]; cbn; [eauto | discriminate]. Qed.

Tactic Notation "inv_bind" hyp(H) "as" ident(a) :=
  let Ha := fresh "H" a in
  apply bind_Ok_inv in H; destruct H as (a & Ha & H).

Lemma summarize_keys selected_survey parsed_data :
  summarize selected_survey = Ok parsed_data ->
  keys parsed_data = keys zero_summary.
Proof.
  unfold summarize. intros H.
  inv_bind H as survey_date. inv_bind H as survey_method.
  inv_bind H as survey_type. inv_bind H as has_catches.
  destruct has_catches.
  - inv_bind H as summaries. inv_bind H as catch_summaries.
    inv_bind H as extracted. destruct extracted as [species total].
    inversion H. reflexivity.
  - inversion H. reflexivity.
Qed.

Lemma parse_body_keys raw_data parsed_data :
  parse_body raw_data = Ok parsed_data ->
  keys parsed_data = keys zero_summary.
Proof.
  unfold parse_body. intros H.
  inv_bind H as has_result.
  destruct (negb has_result); [inversion H; reflexivity |].
  inv_bind H as result.
  destruct result; try (inversion H; reflexivity).
  inv_bind H as has_surveys. inv_bind H as surveys.
  destruct (has_surveys && Py.truthy surveys); [| inversion H; reflexivity].
  inv_bind H as items. inv_bind H as selected.
  destruct (selected_truthy selected); [| inversion H; reflexivity].
  destruct selected as [s|]; [| inversion H; reflexivity].
  eapply summarize_keys. exact H.
Qed.

(** C10. On every dictionary the parser returns a summary and raises
    nothing. Without a ['result'] key, or with a ['result'] that is not a
    dictionary, the summary is the plain zero-value one. When the body of
    the [try] block raises, the summary is the zero-value one with a
    ['parse_error'] string added, a key that no summary of a run without
    exception has; a count that is a string is such a case. *)
Theorem parse_total_with_parse_error (o : dict) :
  (exists parsed_data, parse_fish_survey_data (JObj o) = Ok parsed_data) /\
  (Py.dict_lookup "result" o = None ->
     parse_fish_survey_data (JObj o) = Ok zero_summary) /\
  (forall result, Py.dict_lookup "result" o = Some result ->
     (forall r, result <> JObj r) ->
     parse_fish_survey_data (JObj o) = Ok zero_summary) /\
  (forall e, parse_body (JObj o) = Raise e ->
     parse_fish_survey_data (JObj o) =
     Ok (zero_summary ++ [("parse_error", JStr (exn_msg e))])%list) /\
  (forall parsed_data, parse_body (JObj o) = Ok parsed_data ->
     parse_fish_survey_data (JObj o) = Ok parsed_data /\
     keys parsed_data = keys zero_summary /\
     Py.dict_lookup "parse_error" parsed_data = None) /\
  (exists e, parse_body bad_count_payload = Raise e /\
             exn_cls e = TypeError /\
             parse_fish_survey_data bad_count_payload =
             Ok (zero_summary ++ [("parse_error", JStr (exn_msg e))])%list).
Proof.
  split; [apply parse_fish_survey_data_total |].
  split.
  { intros Hr. rewrite parse_fish_survey_data_unfold. unfold parse_body.
    cbn [Py.contains]. rewrite Hr.
    rewrite bool_decide_eq_false_2 by (intros [x Hx]; discriminate).
    reflexivity. }
  split.
  { intros result Hr Hnd. rewrite parse_fish_survey_data_unfold.
    unfold parse_body. cbn [Py.contains Py.getitem]. rewrite Hr.
    rewrite bool_decide_eq_true_2 by eauto. cbn.
    destruct result; try reflexivity. exfalso. eapply Hnd. reflexivity. }
  split.
  { intros e He. rewrite parse_fish_survey_data_unfold, He. reflexivity. }
  split.
  { intros parsed_data Hp. rewrite parse_fish_survey_data_unfold, Hp.
    split; [reflexivity |].
    pose proof (parse_body_keys _ _ Hp) as Hk. split; [exact Hk |].
    unfold keys in Hk. cbn in Hk.
    destruct parsed_data as [|[k1 v1] [|[k2 v2] [|[k3 v3] [|[k4 v4]
      [|[k5 v5] [|]]]]]]; try discriminate.
    cbn in Hk. inversion Hk; subst. reflexivity. }
  eexists. split; [vm_compute; reflexivity |].
  split; reflexivity.
Qed.

(** ** RecordParser: selection *)

(** *** String order *)

Lemma ascii_compare_refl a : Ascii.compare a a = Eq.
Proof. unfold Ascii.compare. apply N.compare_refl. Qed.





(** *** The sort, on records whose dates are strings *)

Lemma insert_desc_dated r l :
  Py.insert_desc (JStr (date_of r), r) (dated l) =
  Ok (dated (insert_by_date r l)).
Proof.
  induction l as [|y l IH]; [reflexivity |].
  cbn [dated map Py.insert_desc fst Py.lt insert_by_date].
  cbn [mbind res_bind].
  destruct (String.ltb (date_of r) (date_of y)); [| reflexivity].
  fold (dated l). rewrite IH. reflexivity.
Qed.

Lemma sort_desc_dated l :
  Py.sort_desc (dated l) = Ok (dated (sort_by_date l)).
Proof.
  induction l as [|r l IH]; [reflexivity |].
  cbn [dated map Py.sort_desc]. fold (dated l). rewrite IH.
  cbn [mbind res_bind]. apply insert_desc_dated.
Qed.

Lemma insert_by_date_perm r l : Permutation (insert_by_date r l) (r :: l).
Proof.
  induction l as [|y l IH]; cbn; [reflexivity |].
  destruct (String.ltb (date_of r) (date_of y)); [| reflexivity].
  rewrite IH. apply perm_swap.
Qed.

Lemma sort_by_date_perm l : Permutation (sort_by_date l) l.
Proof.
  induction l as [|r l IH]; cbn; [reflexivity |].
  rewrite insert_by_date_perm. apply perm_skip. exact IH.
Qed.




(** *** The parser's tests, on well-formed records *)

Lemma has_fish_data_wf r :
  well_formed_record r = true -> has_fish_data r = Ok (has_catch r).
Proof.
  destruct r as [| | | | | |o]; try discriminate.
  unfold well_formed_record, has_fish_data, has_catch, catches_of, field.
  intros Hwf. apply andb_true_iff in Hwf as [_ Hc]. cbn [Py.get].
  destruct (Py.dict_lookup "fishCatchSummaries" o) as [[| | | | |l|]|];
    try discriminate; try reflexivity.
  destruct l; reflexivity.
Qed.

Lemma is_survey_of_type_wf ty r :
  well_formed_record r = true ->
  is_survey_of_type ty r = Ok (has_type ty r && has_catch r).
Proof.
  intros Hwf. unfold is_survey_of_type.
  pose proof (has_fish_data_wf r Hwf) as Hf.
  destruct r as [| | | | | |o]; try discriminate.
  unfold has_type, field. cbn [Py.get mbind res_bind].
  destruct (Py.dict_lookup "surveyType" o) as [[| | | |s| |]|];
    cbn [default from_option id Py.eq_str]; try reflexivity.
  destruct (String.eqb s ty); [exact Hf | reflexivity].
Qed.

Lemma surveyDate_key_wf r :
  well_formed_record r = true -> surveyDate_key r = Ok (JStr (date_of r)).
Proof.
  destruct r as [| | | | | |o]; try discriminate.
  unfold well_formed_record, surveyDate_key, date_of, field.
  intros Hwf. apply andb_true_iff in Hwf as [Hd _]. cbn [Py.get].
  destruct (Py.dict_lookup "surveyDate" o) as [[| | | |s| |]|];
    try discriminate; reflexivity.
Qed.

Lemma filterM_candidates ty l :
  all_well_formed l ->
  filterM (is_survey_of_type ty) l = Ok (candidates ty l).
Proof.
  induction 1 as [|r l Hr Hl IH]; [reflexivity |].
  cbn [filterM]. rewrite (is_survey_of_type_wf ty r Hr), IH.
  cbn [mbind res_bind candidates List.filter].
  destruct (has_type ty r && has_catch r); reflexivity.
Qed.

Lemma candidates_well_formed ty l :
  all_well_formed l -> all_well_formed (candidates ty l).
Proof.
  induction 1 as [|r l Hr Hl IH]; [constructor |].
  cbn [candidates List.filter].
  destruct (has_type ty r && has_catch r); [constructor |]; assumption.
Qed.

Lemma mapM_surveyDate_key l :
  all_well_formed l ->
  mapM surveyDate_key l = Ok (map (fun r => JStr (date_of r)) l).
Proof.
  induction 1 as [|r l Hr Hl IH]; [reflexivity |].
  cbn [mapM]. rewrite (surveyDate_key_wf r Hr), IH. reflexivity.
Qed.

Lemma zip_keys l :
  zip (map (fun r => JStr (date_of r)) l) l = dated l.
Proof. induction l as [|r l IH]; cbn; [reflexivity | rewrite IH; reflexivity]. Qed.

Lemma snd_dated l : map snd (dated l) = l.
Proof.
  unfold dated. induction l as [|r l IH]; cbn; [reflexivity |].
  rewrite IH. reflexivity.
Qed.

Lemma sort_reverse_by_date l :
  all_well_formed l ->
  Py.sort_reverse surveyDate_key l = Ok (sort_by_date l).
Proof.
  intros Hwf. unfold Py.sort_reverse.
  rewrite (mapM_surveyDate_key l Hwf). cbn [mbind res_bind].
  rewrite zip_keys, sort_desc_dated. cbn [mbind res_bind].
  rewrite snd_dated. reflexivity.
Qed.

Lemma select_most_recent_wf ty surveys selected_survey :
  all_well_formed surveys ->
  select_most_recent ty surveys selected_survey =
  Ok match sort_by_date (candidates ty surveys) with
     | [] => selected_survey
     | first :: _ => Some first
     end.
Proof.
  intros Hwf. unfold select_most_recent.
  rewrite (filterM_candidates ty surveys Hwf). cbn [mbind res_bind].
  pose proof (sort_by_date_perm (candidates ty surveys)) as Hp.
  destruct (candidates ty surveys) as [|c cs] eqn:E; [reflexivity |].
  rewrite sort_reverse_by_date
    by (rewrite <- E; apply candidates_well_formed; exact Hwf).
  cbn [mbind res_bind].
  destruct (sort_by_date (c :: cs)) as [|first rest]; [| reflexivity].
  apply Permutation_nil in Hp. discriminate.
Qed.

Lemma select_fallback_wf surveys selected_survey :
  all_well_formed surveys ->
  select_fallback surveys selected_survey =
  Ok match List.find has_catch surveys with
     | Some r => Some r
     | None => selected_survey
     end.
Proof.
  induction 1 as [|r l Hr Hl IH]; [reflexivity |].
  cbn [select_fallback List.find]. rewrite (has_fish_data_wf r Hr).
  cbn [mbind res_bind]. destruct (has_catch r); [reflexivity | exact IH].
Qed.

Lemma has_catch_truthy r : has_catch r = true -> Py.truthy r = true.
Proof.
  unfold has_catch, catches_of, field.
  destruct r as [| | | | | |o]; try discriminate.
  destruct o; [discriminate | reflexivity].
Qed.

Lemma candidate_has_catch ty surveys s :
  In s (candidates ty surveys) -> has_catch s = true.
Proof.
  unfold candidates. intros Hs. apply filter_In in Hs as [_ Hs].
  apply andb_true_iff in Hs. tauto.
Qed.

Lemma sorted_head_truthy ty surveys s rest :
  sort_by_date (candidates ty surveys) = s :: rest ->
  selected_truthy (Some s) = true.
Proof.
  intros E. cbn [selected_truthy]. apply has_catch_truthy.
  apply (candidate_has_catch ty surveys).
  apply (Permutation_in _ (sort_by_date_perm _)). rewrite E. left. reflexivity.
Qed.

Lemma find_has_catch_truthy surveys s :
  List.find has_catch surveys = Some s -> selected_truthy (Some s) = true.
Proof.
  intros E. apply find_some in E as [_ E]. apply has_catch_truthy. exact E.
Qed.

(** On well-formed records the three passes compute [selection]. *)
Lemma select_survey_selection surveys :
  all_well_formed surveys ->
  select_survey surveys = Ok (selection surveys) /\
  selected_truthy (selection surveys) =
  match selection surveys with Some _ => true | None => false end.
Proof.
  intros Hwf. unfold select_survey, selection.
  rewrite (select_most_recent_wf "Standard Survey" surveys None Hwf).
  cbn [mbind res_bind].
  destruct (sort_by_date (candidates "Standard Survey" surveys))
    as [|s1 rest1] eqn:E1.
  - cbn [selected_truthy negb].
    rewrite (select_most_recent_wf "Targeted Survey" surveys None Hwf).
    cbn [mbind res_bind].
    destruct (sort_by_date (candidates "Targeted Survey" surveys))
      as [|s2 rest2] eqn:E2.
    + cbn [selected_truthy negb].
      rewrite (select_fallback_wf surveys None Hwf).
      destruct (List.find has_catch surveys) as [s3|] eqn:E3.
      * split; [reflexivity | exact (find_has_catch_truthy _ _ E3)].
      * split; reflexivity.
    + rewrite (sorted_head_truthy _ _ _ _ E2). cbn [negb].
      split; reflexivity.
  - rewrite (sorted_head_truthy _ _ _ _ E1). cbn [negb mbind res_bind].
    rewrite (sorted_head_truthy _ _ _ _ E1). cbn [negb].
    split; reflexivity.
Qed.






(** ** RecordParser: species entries and the total *)












(** ** Per-key resolution: cache hits *)


(** A fresh, readable entry holding a document is returned as it is, and
    the world stays as it was: nothing is sent. *)
Lemma get_fresh_entry dowlknum w now f d :
  entry dowlknum w = Some f -> content f = Document d ->
  is_None d = false -> fresh now f = true -> readable dowlknum w ->
  get_fish_survey_summary dowlknum true (at_time now w) =
  (Ok d, at_time now w).
Proof.
  intros E Hc Hd F Hr. apply get_hit; [| exact Hd].
  rewrite (load_fresh dowlknum (at_time now w) f E F Hr), Hc;
    [reflexivity |].
  unfold escapes. rewrite Hc. reflexivity.
Qed.

Lemma entry_store dowlknum data w :
  entry dowlknum (store (_get_cache_file_path dowlknum) data w) =
  Some (File (clock w) (Document data)).
Proof. unfold entry, store. cbn [cache_dir]. apply lookup_insert_eq. Qed.


(** The three ways of a resolution: it finds a usable entry, or the
    cache read returns absent (always so when the cache is not in use),
    or the cache read raises. *)
Lemma get_cases dowlknum use_cache w :
  (use_cache = true /\
   exists d, _load_from_cache dowlknum w = (Ok d, w) /\ is_None d = false) \/
  (use_cache = true -> _load_from_cache dowlknum w = (Ok JNull, w)) \/
  (use_cache = true /\
   exists f e,
     entry dowlknum w = Some f /\ fresh (clock w) f = true /\
     readable dowlknum w /\ escapes f = true /\
     _load_from_cache dowlknum w = (Raise e, w)).
Proof.
  destruct use_cache; [| right; left; discriminate].
  destruct (load_cases dowlknum w) as [[d Hd] | H].
  - destruct (is_None d) eqn:Hn.
    + right. left. intros _. destruct d; simpl in *; congruence.
    + left. eauto.
  - right. right. auto.
Qed.

(** What the cache read raises, the resolution raises, before any
    request. *)
Lemma get_raise dowlknum w e :
  _load_from_cache dowlknum w = (Raise e, w) ->
  get_fish_survey_summary dowlknum true w = (Raise e, w).
Proof.
  intros Hload. unfold get_fish_survey_summary.
  unfold mbind at 1, M_bind. rewrite Hload. reflexivity.
Qed.






(** C8, as the code has it. When the resolution finds no usable entry
    and the fetch returns absent, it returns the sentinel: no species, a
    zero total, the time of the fetch and the no-data flag. With caching
    disabled nothing is written. With caching enabled and a writable cache
    file the sentinel becomes the entry, and a later resolution, made
    while the entry is at most 24 hours old and provided the file can be
    read back, returns it and sends nothing; when the file cannot be
    written the world is left as the fetch left it. *)
Theorem absent_fetch_yields_sentinel dowlknum use_cache w w1 :
  (use_cache = true -> _load_from_cache dowlknum w = (Ok JNull, w)) ->
  fetch_fish_survey_data dowlknum w = (Ok JNull, w1) ->
  let sentinel := JObj (no_data_summary dowlknum (clock w1)) in
  exists w2,
    get_fish_survey_summary dowlknum use_cache w = (Ok sentinel, w2) /\
    field "fish_species" sentinel = Some (JArr []) /\
    field "total_fish_caught" sentinel = Some (JInt 0) /\
    field "fetch_timestamp" sentinel = Some (JFloat (clock w1)) /\
    field "no_data_available" sentinel = Some (JBool true) /\
    sent w2 = sent w1 /\
    (use_cache = false -> w2 = w1) /\
    (use_cache = true -> ~ writable dowlknum w -> w2 = w1) /\
    (use_cache = true -> writable dowlknum w ->
       w2 = store (_get_cache_file_path dowlknum) sentinel w1 /\
       entry dowlknum w2 = Some (File (clock w1) (Document sentinel)) /\
       forall now,
         readable dowlknum w ->
         within_ttl now (clock w1) = true ->
         get_fish_survey_summary dowlknum true (at_time now w2) =
           (Ok sentinel, at_time now w2) /\
         sent (at_time now w2) = sent w1).
Proof.
  intros Hload Hfetch sentinel.
  pose proof (get_miss_absent dowlknum use_cache w w1 Hload Hfetch) as Hget.
  fold sentinel in Hget.
  destruct (fetch_fish_survey_data_total dowlknum w)
    as (raw & w1' & n & Hfetch' & Hs & _).
  rewrite Hfetch in Hfetch'. inversion Hfetch'; subst raw w1'. clear Hfetch'.
  assert (Hro : writable dowlknum w1 <-> writable dowlknum w).
  { unfold writable. destruct Hs as (_ & -> & _). tauto. }
  eexists. split; [exact Hget |].
  do 4 (split; [reflexivity |]).
  split.
  { destruct use_cache; [| reflexivity].
    destruct (save_total dowlknum sentinel w1) as (w2 & -> & E & _). exact E. }
  split; [intros ->; reflexivity |].
  split.
  { intros -> Hnw. rewrite save_readonly; [reflexivity |].
    rewrite Hro. exact Hnw. }
  intros -> Hw.
  assert (Hstore : snd (_save_to_cache dowlknum sentinel w1) =
                   store (_get_cache_file_path dowlknum) sentinel w1).
  { rewrite save_writable; [reflexivity | discriminate |].
    rewrite Hro. exact Hw. }
  rewrite Hstore. split; [reflexivity |].
  split; [apply entry_store |].
  intros now Hr Hfresh. split; [| reflexivity].
  eapply get_fresh_entry; [apply entry_store | reflexivity | reflexivity | |].
  - apply within_ttl_fresh. exact Hfresh.
  - unfold readable in *. cbn [unreadable store].
    destruct Hs as (_ & _ & _ & ->). exact Hr.
Qed.

(** C8 on an empty cache and a script that answers 404: the sentinel is
    stored, and the resolution made twelve hours later returns it without
    a request. *)
Lemma absent_fetch_yields_sentinel_witness :
  exists w2,
    get_fish_survey_summary "27000100" true (fresh_world not_found_script) =
      (Ok (JObj (no_data_summary "27000100" 1700000000%float)), w2) /\
    entry "27000100" w2 =
      Some (File 1700000000%float
              (Document (JObj (no_data_summary "27000100" 1700000000%float)))) /\
    get_fish_survey_summary "27000100" true (at_time 1700043200 w2) =
      (Ok (JObj (no_data_summary "27000100" 1700000000%float)),
       at_time 1700043200 w2) /\
    sent (at_time 1700043200 w2) = ["27000100"].
Proof.
  destruct (absent_fetch_yields_sentinel "27000100" true
              (fresh_world not_found_script)
              (log_request "27000100" (fresh_world not_found_script))
              (fun _ => eq_refl) eq_refl)
    as (w2 & Hget & _ & _ & _ & _ & _ & _ & _ & Hpersist).
  destruct (Hpersist eq_refl) as (_ & He & Hlater).
  { unfold writable, fresh_world. cbn [readonly]. apply not_elem_of_empty. }
  exists w2. split; [exact Hget |]. split; [exact He |].
  apply (Hlater 1700043200%float); [| reflexivity].
  unfold readable, fresh_world. cbn [unreadable]. apply not_elem_of_empty.
Defined.

(** Against C8 as stated. When the cache file cannot be written the
    sentinel is returned and
    not persisted, and the next resolution sends a request. *)
Lemma unwritable_cache_sentinel_not_persisted :
  let '(r1, w1) :=
    get_fish_survey_summary "27000100" true (readonly_world not_found_script) in
  let '(r2, w2) := get_fish_survey_summary "27000100" true w1 in
  r1 = Ok (JObj (no_data_summary "27000100" 1700000000%float)) /\
  entry "27000100" w1 = None /\
  length (sent w2) = S (length (sent w1)).
Proof. vm_compute. repeat split. Qed.

(** When the cache file can be written and not read, the expired entry
    is replaced by the new sentinel, and the next resolution, at the same
    reading of the clock, cannot read it back: it sends a request of its
    own. *)
Lemma write_only_cache_second_call_fetches :
  let '(r1, w1) :=
    get_fish_survey_summary "27000100" true (writeonly_world not_found_script) in
  let '(r2, w2) := get_fish_survey_summary "27000100" true w1 in
  r1 = Ok (JObj (no_data_summary "27000100" 1700000000%float)) /\
  r2 = r1 /\
  holds w1 "27000100" (JObj (no_data_summary "27000100" 1700000000%float)) /\
  sent w1 = ["27000100"] /\ sent w2 = ["27000100"; "27000100"].
Proof.
  vm_compute. repeat split. eexists. split; reflexivity.
Qed.

(** ** Per-key resolution: the fields of what it returns *)



Lemma sentinel_fields dowlknum now :
  has_summary_fields (JObj (no_data_summary dowlknum now)) = true /\
  field "no_data_available" (JObj (no_data_summary dowlknum now)) =
    Some (JBool true).
Proof. split; reflexivity. Qed.







(** ** BatchCoordinator *)

#[local] Set Warnings "-clear-no-such-hyp".

Lemma time_sleep_valid delay w :
  valid_delay delay = true -> time_sleep delay w = (Ok tt, advance delay w).
Proof.
  unfold valid_delay, time_sleep. intros H.
  apply andb_true_iff in H as [H0 Hmax]. apply negb_true_iff in Hmax.
  rewrite H0, Hmax. reflexivity.
Qed.



Lemma collect_dom futures : forall results,
  Forall names_its_key futures ->
  dom (collect futures results) =
  dom results ∪ list_to_set (map snd futures).
Proof.
  induction futures as [|[[[k data]|e] dowlknum] rest IH];
    intros results Hall.
  - cbn. set_solver.
  - inversion Hall as [|? ? Hk Hrest]; subst. cbn in Hk. subst k.
    cbn [collect]. rewrite (IH _ Hrest), dom_insert_L.
    cbn [map snd list_to_set]. set_solver.
  - inversion Hall as [|? ? Hk Hrest]; subst.
    cbn [collect]. rewrite (IH _ Hrest), dom_insert_L.
    cbn [map snd list_to_set]. set_solver.
Qed.




Lemma ThreadPoolExecutor_valid max_workers w :
  valid_workers max_workers = true ->
  ThreadPoolExecutor
    match max_workers with
    | Some n => if n =? 0 then MAX_WORKERS else n
    | None => MAX_WORKERS
    end w = (Ok tt, w).
Proof.
  unfold valid_workers, ThreadPoolExecutor. destruct max_workers as [n|].
  - intros Hn. apply Z.leb_le in Hn. destruct (n =? 0) eqn:E.
    + reflexivity.
    + apply Z.eqb_neq in E.
      replace (n <=? 0) with false by (symmetry; apply Z.leb_gt; lia).
      reflexivity.
  - reflexivity.
Qed.




Lemma lifo_fair : fair lifo.
Proof.
  split; intros l; cbn; [reflexivity |].
  symmetry. apply Permutation_rev.
Qed.

(** C1, at an input on which it fails. Two keys are fetched one after
    the other with the cache in use, and the cache file of the first is
    1000 seconds old and not UTF-8 text. The cache read raises
    [UnicodeDecodeError], the resolution of the first key raises it, and
    the sequential loop, which has no [try], lets it out: the batch
    returns no map and sends no request, where the claim has one entry per
    key. On the same input the pool's loop catches the exception of the
    task and returns a map of two entries, [None] under the first key. *)
Theorem sequential_batch_aborts_on_undecodable_cache_file :
  exists e,
    exn_cls e = UnicodeDecodeError /\
    batch_fetch_fish_surveys lifo ["27000100"; "27013300"] 0.5%float false
      None true (corrupt_world payload_script) =
      (Raise e, corrupt_world payload_script) /\
    exists results w',
      batch_fetch_fish_surveys lifo ["27000100"; "27013300"] 0.5%float true
        None true (corrupt_world payload_script) = (Ok results, w') /\
      results !! "27000100" = Some JNull /\
      (exists summary,
         results !! "27013300" = Some summary /\ is_None summary = false) /\
      size results = 2%nat.
Proof.
  eexists. split; [| split; [vm_compute; reflexivity |]]; [reflexivity |].
  eexists _, _. split; [vm_compute; reflexivity |].
  split; [vm_compute; reflexivity |].
  split; [eexists; split; [vm_compute; reflexivity | reflexivity] |].
  vm_compute. reflexivity.
Qed.

(** A delay that [time.sleep] refuses makes every task of the pool raise:
    the parallel batch still returns one entry per key, each of them
    null, and sends nothing. *)
Lemma refused_delay_gives_null_entries :
  batch_fetch_fish_surveys_parallel lifo sample_keys None (-1)%float true
    (fresh_world not_found_script) =
  (Ok (<["27000100" := JNull]> (<["27013300" := JNull]>
         (<["48000200" := JNull]> ∅))),
   fresh_world not_found_script).
Proof. vm_compute. reflexivity. Qed.

(** * Further properties of the code *)

(** ** Cache file names *)

Lemma append_length_string (a b : string) :
  String.length (a +:+ b) = (String.length a + String.length b)%nat.
Proof.
  induction a as [|c a IH]; [reflexivity |].
  change (S (String.length (a +:+ b)) = S (String.length a + String.length b)).
  rewrite IH. reflexivity.
Qed.

Lemma append_inj_same_length (s : string) : forall a b : string,
  String.length a = String.length b -> a +:+ s = b +:+ s -> a = b.
Proof.
  induction a as [|c a IH]; intros [|d b] Hlen H; cbn in Hlen;
    try discriminate; [reflexivity |].
  cbn in H. injection H as -> H. f_equal. apply IH; [lia | exact H].
Qed.

Lemma append_inj_suffix (s a b : string) : a +:+ s = b +:+ s -> a = b.
Proof.
  intros H. apply (append_inj_same_length s); [| exact H].
  apply (f_equal String.length) in H.
  rewrite !append_length_string in H. lia.
Qed.

Lemma cache_file_path_inj dowlknum1 dowlknum2 :
  _get_cache_file_path dowlknum1 = _get_cache_file_path dowlknum2 ->
  dowlknum1 = dowlknum2.
Proof.
  unfold _get_cache_file_path. cbn. intros H.
  repeat (injection H as H). apply (append_inj_suffix ".json"). exact H.
Qed.

Lemma append_String_assoc (r : string) c b :
  r +:+ String c b = (r +:+ String c "") +:+ b.
Proof.
  induction r as [|x r IH]; [reflexivity |].
  change (String x (r +:+ String c b) = String x ((r +:+ String c "") +:+ b)).
  rewrite IH. reflexivity.
Qed.

Lemma rev_app_append (a : string) : forall b,
  String.rev_app a b = String.rev_app a "" +:+ b.
Proof.
  induction a as [|c a IH]; intros b; [reflexivity |].
  change (String.rev_app a (String c b) =
          String.rev_app a (String c "") +:+ b).
  rewrite (IH (String c b)), (IH (String c "")).
  apply append_String_assoc.
Qed.

Lemma rev_append (a b : string) :
  String.rev (a +:+ b) = String.rev b +:+ String.rev a.
Proof.
  unfold String.rev.
  assert (H : forall acc, String.rev_app (a +:+ b) acc =
                          String.rev_app b "" +:+ String.rev_app a acc).
  { induction a as [|c a IH]; intros acc.
    - apply rev_app_append.
    - change (String.rev_app (a +:+ b) (String c acc) =
              String.rev_app b "" +:+ String.rev_app a (String c acc)).
      apply IH. }
  apply H.
Qed.

Lemma prefix_append (a b : string) : String.prefix a (a +:+ b) = true.
Proof.
  induction a as [|c a IH]; [destruct b; reflexivity |].
  change (String c a +:+ b) with (String c (a +:+ b)).
  cbn [String.prefix]. destruct (ascii_dec c c); [exact IH | congruence].
Qed.

Lemma append_assoc_string (a b c : string) :
  a +:+ (b +:+ c) = (a +:+ b) +:+ c.
Proof.
  induction a as [|x a IH]; [reflexivity |].
  change (String x (a +:+ (b +:+ c)) = String x ((a +:+ b) +:+ c)).
  rewrite IH. reflexivity.
Qed.

Lemma cache_file_path_matches dowlknum :
  is_cache_file (_get_cache_file_path dowlknum) = true.
Proof.
  unfold is_cache_file, _get_cache_file_path.
  rewrite prefix_append, !rev_append, <- append_assoc_string, prefix_append.
  rewrite !append_length_string. cbn [andb].
  apply Nat.leb_le. cbn. lia.
Qed.

(** X1. Two keys share a cache file only when they are the same key, and
    the pattern [fish_survey_*.json], by which [get_cache_stats] and
    [clear_cache] list the cache, matches the file of every key. *)
Theorem cache_file_per_key dowlknum1 dowlknum2 :
  (_get_cache_file_path dowlknum1 = _get_cache_file_path dowlknum2 <->
   dowlknum1 = dowlknum2) /\
  is_cache_file (_get_cache_file_path dowlknum1) = true.
Proof.
  split; [split; [apply cache_file_path_inj | intros ->; reflexivity] |].
  apply cache_file_path_matches.
Qed.

(** ** What a resolution touches *)

Lemma decodes_store other dowlknum data w :
  decodes other w ->
  decodes other (store (_get_cache_file_path dowlknum) data w).
Proof.
  unfold decodes, entry, store. cbn [cache_dir]. intros Hd f.
  rewrite lookup_insert.
  destruct (decide (_get_cache_file_path dowlknum =
                    _get_cache_file_path other)) as [_ | _].
  - intros H. inversion H. reflexivity.
  - apply Hd.
Qed.

Lemma save_effect dowlknum data w :
  exists w',
    _save_to_cache dowlknum data w = (Ok tt, w') /\
    sent w' = sent w /\ clock w' = clock w /\ net w' = net w /\
    readonly w' = readonly w /\ unreadable w' = unreadable w /\
    slept w' = slept w /\
    (forall name, name <> _get_cache_file_path dowlknum ->
       cache_dir w' !! name = cache_dir w !! name) /\
    (forall other, decodes other w -> decodes other w').
Proof.
  destruct (decide (writable dowlknum w)) as [Hw | Hw].
  - assert (Hd : data = JNull \/ data <> JNull)
      by (destruct data; (left; reflexivity) || (right; discriminate)).
    destruct Hd as [-> | Hd].
    + exists w. do 8 (split; [reflexivity || (intros; reflexivity) |]). auto.
    + rewrite (save_writable _ _ _ Hd Hw). eexists.
      do 7 (split; [reflexivity |]). split.
      * intros name Hne. unfold store. cbn [cache_dir].
        apply lookup_insert_ne. congruence.
      * intros other. apply decodes_store.
  - rewrite (save_readonly _ _ _ Hw). exists w.
    do 8 (split; [reflexivity || (intros; reflexivity) |]). auto.
Qed.

(** The effect of one resolution on the world, whether it returns or
    raises. *)
Lemma get_effect dowlknum use_cache w :
  exists r w' n,
    get_fish_survey_summary dowlknum use_cache w = (r, w') /\
    (forall summary, r = Ok summary -> is_None summary = false) /\
    sent w' = (repeat dowlknum n ++ sent w)%list /\
    (n <= MAX_RETRIES)%nat /\
    readonly w' = readonly w /\ unreadable w' = unreadable w /\
    net w' = net w /\
    (forall name, name <> _get_cache_file_path dowlknum ->
       cache_dir w' !! name = cache_dir w !! name) /\
    (use_cache = false -> cache_dir w' = cache_dir w /\ (1 <= n)%nat) /\
    (use_cache = false \/ decodes dowlknum w ->
     exists summary, r = Ok summary) /\
    (forall e, r = Raise e ->
       use_cache = true /\ w' = w /\
       exists f, entry dowlknum w = Some f /\ escapes f = true /\
                 json_load f = Raise e) /\
    (forall other, decodes other w -> decodes other w').
Proof.
  destruct (get_cases dowlknum use_cache w)
    as [[-> (d & Hload & Hn)]
       | [Hmiss | (-> & f & e & E & F & Hr & Hesc & Hload)]].
  - exists (Ok d), w, 0%nat. split; [apply get_hit; assumption |].
    split; [intros ? H; inversion H; subst; exact Hn |].
    do 5 (split; [reflexivity || lia |]).
    split; [intros; reflexivity |]. split; [discriminate |].
    split; [eauto |]. split; [discriminate | auto].
  - destruct (get_miss dowlknum use_cache w Hmiss)
      as (raw & w1 & n & summary & _ & Hs & Hsent & Hn & Hsum & Hget).
    destruct Hs as (Hc & Hro & Hnet & Hu).
    assert (Hnn : is_None summary = false).
    { destruct Hsum as [[-> _] | (pd & _ & _ & ->)]; reflexivity. }
    assert (Hdec1 : forall other, decodes other w -> decodes other w1).
    { intros other Hd f0. unfold entry. rewrite Hc. apply Hd. }
    destruct (save_effect dowlknum summary w1)
      as (w2 & Hsave & S1 & _ & S3 & S4 & S5 & _ & S7 & S8).
    exists (Ok summary), (if use_cache then w2 else w1), n.
    split; [rewrite Hget, Hsave; reflexivity |].
    split; [intros ? H; inversion H; subst; exact Hnn |].
    destruct use_cache.
    + split; [congruence |]. split; [lia |]. split; [congruence |].
      split; [congruence |]. split; [congruence |].
      split; [intros name Hne; rewrite (S7 name Hne), Hc; reflexivity |].
      split; [discriminate |]. split; [eauto |].
      split; [discriminate |]. intros other Hd. apply S8, Hdec1, Hd.
    + split; [exact Hsent |]. split; [lia |]. split; [exact Hro |].
      split; [exact Hu |]. split; [exact Hnet |].
      split; [intros name _; rewrite Hc; reflexivity |].
      split; [intros _; split; [exact Hc | lia] |]. split; [eauto |].
      split; [discriminate | exact Hdec1].
  - destruct (load_escapes _ _ _ E F Hr Hesc) as (e' & Hload' & Hjl & _).
    rewrite Hload in Hload'. inversion Hload'; subst e'.
    exists (Raise e), w, 0%nat. split; [apply get_raise; exact Hload |].
    split; [discriminate |].
    do 5 (split; [reflexivity || lia |]).
    split; [intros; reflexivity |]. split; [discriminate |].
    split.
    { intros [? | Hd]; [discriminate |].
      rewrite (Hd f E) in Hesc. discriminate. }
    split; [| auto].
    intros e0 H. inversion H; subst e0.
    split; [reflexivity |]. split; [reflexivity |]. eauto.
Qed.



(** ** RemoteFetcher: the retry loop in general *)






(** ** RecordCache: [clear_cache] and [get_cache_stats] *)

Lemma elem_of_cache_file_names name w :
  name ∈ cache_file_names w <->
  is_cache_file name = true /\ is_Some (cache_dir w !! name).
Proof.
  unfold cache_file_names. rewrite list_elem_of_fmap. split.
  - intros ([n f] & -> & Hin). apply list_elem_of_filter in Hin as [Hc Hin].
    apply elem_of_map_to_list in Hin. cbn in *. eauto.
  - intros [Hc [f Hf]]. exists (name, f). split; [reflexivity |].
    apply list_elem_of_filter. split; [exact Hc |].
    apply elem_of_map_to_list. exact Hf.
Qed.

Lemma unlink_all_effect locked : forall cache_files w,
  exists w',
    unlink_all locked cache_files w = (Ok tt, w') /\
    clock w' = clock w /\ readonly w' = readonly w /\ net w' = net w /\
    sent w' = sent w /\ slept w' = slept w /\
    forall name,
      cache_dir w' !! name =
      if bool_decide (name ∈ cache_files) && negb (bool_decide (name ∈ locked))
      then None else cache_dir w !! name.
Proof.
  induction cache_files as [|cache_file rest IH]; intros w.
  - exists w. do 6 (split; [reflexivity |]). intros name.
    rewrite bool_decide_eq_false_2 by apply not_elem_of_nil. reflexivity.
  - cbn [unlink_all]. unfold mbind at 1, M_bind.
    assert (H1 : exists w1,
      try_exceptM (unlink locked cache_file)
        [([IOError], fun _ => mret tt)] w = (Ok tt, w1) /\
      clock w1 = clock w /\ readonly w1 = readonly w /\ net w1 = net w /\
      sent w1 = sent w /\ slept w1 = slept w /\
      forall name,
        cache_dir w1 !! name =
        if bool_decide (name = cache_file) && negb (bool_decide (name ∈ locked))
        then None else cache_dir w !! name).
    { unfold try_exceptM, unlink.
      destruct (bool_decide (cache_file ∈ locked)) eqn:Hl.
      - exists w. do 6 (split; [reflexivity |]). intros name.
        destruct (bool_decide (name = cache_file)) eqn:Hn; [| reflexivity].
        apply bool_decide_eq_true in Hn. subst name. rewrite Hl. reflexivity.
      - destruct (cache_dir w !! cache_file) as [f|] eqn:Hf.
        + eexists. do 6 (split; [reflexivity |]). intros name.
          unfold remove_file. cbn [cache_dir].
          destruct (bool_decide (name = cache_file)) eqn:Hn.
          * apply bool_decide_eq_true in Hn. subst name. rewrite Hl.
            apply lookup_delete_eq.
          * apply bool_decide_eq_false in Hn.
            rewrite lookup_delete_ne by congruence. reflexivity.
        + exists w. do 6 (split; [reflexivity |]). intros name.
          destruct (bool_decide (name = cache_file)) eqn:Hn; [| reflexivity].
          apply bool_decide_eq_true in Hn. subst name. rewrite Hl, Hf.
          reflexivity. }
    destruct H1 as (w1 & -> & Hc1 & Hr1 & Hn1 & Hs1 & Hsl1 & Hd1).
    destruct (IH w1) as (w' & -> & Hc & Hr & Hn & Hs & Hsl & Hd).
    exists w'. split; [reflexivity |].
    rewrite Hc, Hr, Hn, Hs, Hsl. repeat split; try assumption.
    intros name. rewrite Hd, Hd1.
    destruct (bool_decide (name ∈ locked)); cbn [negb];
      rewrite ?andb_false_r; [reflexivity |].
    rewrite !andb_true_r.
    destruct (decide (name = cache_file)) as [-> | Hne].
    + rewrite (bool_decide_eq_true_2 (cache_file ∈ cache_file :: rest))
        by apply list_elem_of_here.
      rewrite (bool_decide_eq_true_2 (cache_file = cache_file)) by reflexivity.
      destruct (bool_decide (cache_file ∈ rest)); reflexivity.
    + rewrite (bool_decide_eq_false_2 (name = cache_file)) by exact Hne.
      destruct (decide (name ∈ rest)) as [Hin | Hnin].
      * rewrite !bool_decide_eq_true_2;
          [reflexivity | apply list_elem_of_further; exact Hin | exact Hin].
      * rewrite !bool_decide_eq_false_2; [reflexivity | | exact Hnin].
        intros Hin. apply elem_of_cons in Hin as [? | ?]; tauto.
Qed.

Lemma clear_cache_effect locked w :
  exists w',
    clear_cache locked w = (Ok tt, w') /\
    clock w' = clock w /\ readonly w' = readonly w /\ net w' = net w /\
    sent w' = sent w /\ slept w' = slept w /\
    forall name,
      cache_dir w' !! name =
      if is_cache_file name && negb (bool_decide (name ∈ locked))
      then None else cache_dir w !! name.
Proof.
  unfold clear_cache.
  destruct (unlink_all_effect locked (cache_file_names w) w)
    as (w' & H & Hc & Hr & Hn & Hs & Hsl & Hd).
  exists w'. repeat split; try assumption.
  intros name. rewrite Hd.
  destruct (bool_decide (name ∈ locked)); cbn [negb];
    rewrite ?andb_false_r; [reflexivity |].
  rewrite !andb_true_r.
  destruct (decide (name ∈ cache_file_names w)) as [Hin | Hnin].
  - rewrite bool_decide_eq_true_2 by exact Hin.
    apply elem_of_cache_file_names in Hin as [-> _]. reflexivity.
  - rewrite bool_decide_eq_false_2 by exact Hnin.
    destruct (is_cache_file name) eqn:Hc'; [| reflexivity].
    destruct (cache_dir w !! name) as [f|] eqn:Hf; [| reflexivity].
    exfalso. apply Hnin. apply elem_of_cache_file_names. eauto.
Qed.

(** X6. [clear_cache] never raises. It deletes every file of the cache
    directory whose name matches [fish_survey_*.json], except those the
    system refuses to delete, and no other file; clock, network and logs
    stay as they were. Afterwards the cache read of a key whose file could
    be deleted finds nothing. *)
Theorem clear_cache_deletes_the_cache_files locked w :
  exists w',
    clear_cache locked w = (Ok tt, w') /\
    (forall name,
       cache_dir w' !! name =
       if is_cache_file name && negb (bool_decide (name ∈ locked))
       then None else cache_dir w !! name) /\
    (forall dowlknum,
       _get_cache_file_path dowlknum ∉ locked ->
       _load_from_cache dowlknum w' = (Ok JNull, w')) /\
    clock w' = clock w /\ readonly w' = readonly w /\ net w' = net w /\
    sent w' = sent w /\ slept w' = slept w.
Proof.
  destruct (clear_cache_effect locked w)
    as (w' & H & Hc & Hr & Hn & Hs & Hsl & Hd).
  exists w'. repeat split; try assumption.
  intros dowlknum Hl. apply load_missing. unfold entry.
  rewrite Hd, cache_file_path_matches, bool_decide_eq_false_2 by exact Hl.
  reflexivity.
Qed.



Lemma cache_file_names_NoDup w : NoDup (cache_file_names w).
Proof.
  unfold cache_file_names.
  apply (sublist_NoDup _ (map fst (map_to_list (cache_dir w)))).
  - apply NoDup_fst_map_to_list.
  - apply fmap_sublist, sublist_filter.
Qed.

Lemma cache_file_names_length w :
  length (cache_file_names w) =
  length (filter (fun nf : string * file => is_cache_file (fst nf) = true)
            (map_to_list (cache_dir w))).
Proof. unfold cache_file_names. apply length_map. Qed.

(** X8. [get_cache_stats] reads the cache directory without changing
    anything. Its fresh and expired counts add up to the total, the total
    is at most the number of files in the directory, and it counts the
    cache file of every key that has an entry: distinct keys with entries
    are at most [total_files]. *)
Theorem cache_stats_count_the_entries (dowlknums : list string) w :
  NoDup dowlknums ->
  (forall dowlknum, dowlknum ∈ dowlknums -> is_Some (entry dowlknum w)) ->
  exists stats,
    get_cache_stats w = (Ok stats, w) /\
    (fresh_files stats + expired_files stats = total_files stats)%nat /\
    (length dowlknums <= total_files stats)%nat /\
    (total_files stats <= size (cache_dir w))%nat.
Proof.
  intros Hnd Hentries. unfold get_cache_stats.
  eexists. split; [reflexivity |]. cbn [fresh_files expired_files total_files].
  split; [| split].
  - pose proof (length_filter
      (fun nf : string * file =>
         PrimFloat.leb (clock w - st_mtime (snd nf))%float TTL = true)
      (filter (fun nf : string * file => is_cache_file (fst nf) = true)
         (map_to_list (cache_dir w)))) as Hle.
    lia.
  - rewrite <- cache_file_names_length.
    rewrite <- (length_map _get_cache_file_path dowlknums).
    apply submseteq_length, NoDup_submseteq.
    + apply (NoDup_fmap_2_strong _get_cache_file_path); [| exact Hnd].
      intros a b _ _. apply cache_file_path_inj.
    + intros name Hin. apply list_elem_of_fmap in Hin as (k & -> & Hk).
      apply elem_of_cache_file_names.
      split; [apply cache_file_path_matches | apply Hentries; exact Hk].
  - rewrite <- (length_map_to_list (cache_dir w)). apply length_filter.
Qed.

(** One entry in the cache: at least one file is counted. *)
Lemma cache_stats_count_the_entries_witness :
  exists stats,
    get_cache_stats
      (store (_get_cache_file_path "27000100") (JObj [])
         (fresh_world not_found_script)) =
    (Ok stats,
     store (_get_cache_file_path "27000100") (JObj [])
       (fresh_world not_found_script)) /\
    (fresh_files stats + expired_files stats = total_files stats)%nat /\
    (length ["27000100"] <= total_files stats)%nat /\
    (total_files stats <=
     size (cache_dir (store (_get_cache_file_path "27000100") (JObj [])
                        (fresh_world not_found_script))))%nat.
Proof.
  apply (cache_stats_count_the_entries ["27000100"]).
  - apply NoDup_singleton.
  - intros k Hk. apply list_elem_of_singleton in Hk. subst k.
    rewrite entry_store. eauto.
Defined.

(** ** BatchCoordinator: what a batch returns and touches *)

Lemma footprint_refl dowlknums use_cache w : footprint dowlknums use_cache w w.
Proof.
  split; [exists []; repeat split; [cbn; lia | constructor] |].
  repeat split.
Qed.


Lemma footprint_app l1 l2 use_cache w w1 w2 :
  footprint l1 use_cache w w1 -> footprint l2 use_cache w1 w2 ->
  footprint (l1 ++ l2) use_cache w w2.
Proof.
  intros ((r1 & Hs1 & Hl1 & Hf1) & Hr1 & Hn1 & Hc1 & Hu1)
         ((r2 & Hs2 & Hl2 & Hf2) & Hr2 & Hn2 & Hc2 & Hu2).
  split; [| split; [congruence | split; [congruence | split]]].
  - exists (r2 ++ r1)%list. split; [| split].
    + rewrite Hs2, Hs1, <- app_assoc. reflexivity.
    + rewrite !length_app. lia.
    + apply Forall_app. split.
      * eapply Forall_impl; [exact Hf2 |]. cbn. intros k Hk.
        apply elem_of_app. right. exact Hk.
      * eapply Forall_impl; [exact Hf1 |]. cbn. intros k Hk.
        apply elem_of_app. left. exact Hk.
  - intros name Hname. rewrite Hc2, Hc1; [reflexivity | |];
      intros k Hk; apply Hname; apply elem_of_app; auto.
  - intros Hu. destruct (Hu1 Hu), (Hu2 Hu). congruence.
Qed.

Lemma footprint_perm l1 l2 use_cache w w' :
  Permutation l1 l2 -> footprint l1 use_cache w w' ->
  footprint l2 use_cache w w'.
Proof.
  intros Hp ((r & Hs & Hl & Hf) & Hr & Hn & Hc & Hu).
  split; [| split; [exact Hr | split; [exact Hn | split; [| exact Hu]]]].
  - exists r. split; [exact Hs |]. split.
    + rewrite <- (Permutation_length Hp). exact Hl.
    + eapply Forall_impl; [exact Hf |]. cbn. intros k Hk.
      rewrite <- Hp. exact Hk.
  - intros name Hname. apply Hc. intros k Hk. apply Hname.
    rewrite <- Hp. exact Hk.
Qed.


Lemma get_footprint dowlknum use_cache w :
  exists r w',
    get_fish_survey_summary dowlknum use_cache w = (r, w') /\
    (forall summary, r = Ok summary -> is_None summary = false) /\
    footprint [dowlknum] use_cache w w' /\
    (use_cache = false \/ decodes dowlknum w ->
     exists summary, r = Ok summary) /\
    (forall other, decodes other w -> decodes other w').
Proof.
  destruct (get_effect dowlknum use_cache w)
    as (r & w' & n & Hget & Hnn & Hsent & Hn & Hr & _ & Hnet & Hc & Hu & Hex
        & _ & Hdec).
  exists r, w'. split; [exact Hget |]. split; [exact Hnn |].
  split; [| split; [exact Hex | exact Hdec]].
  split; [| split; [exact Hr | split; [exact Hnet | split]]].
  - exists (repeat dowlknum n). split; [exact Hsent |]. split.
    + rewrite repeat_length. cbn [length]. lia.
    + apply Forall_forall. intros k Hk.
      apply list_elem_of_In, repeat_spec in Hk. subst k.
      apply list_elem_of_here.
  - intros name Hname. apply Hc. apply Hname, list_elem_of_here.
  - intros Hf. apply (Hu Hf).
Qed.

Lemma all_summaries_insert dowlknum v results :
  is_None v = false -> all_summaries results ->
  all_summaries (<[dowlknum := v]> results).
Proof.
  intros Hv Hall k v' Hk. destruct (decide (dowlknum = k)) as [-> | Hne].
  - rewrite lookup_insert_eq in Hk. congruence.
  - rewrite lookup_insert_ne in Hk by exact Hne. exact (Hall _ _ Hk).
Qed.

Lemma time_sleep_refused delay w :
  valid_delay delay = false ->
  exists e,
    time_sleep delay w = (Raise e, w) /\
    (exn_cls e = ValueError \/ exn_cls e = OverflowError).
Proof.
  unfold valid_delay, time_sleep. intros H.
  destruct (PrimFloat.leb 0 delay); cbn [negb andb] in *.
  - apply negb_false_iff in H. rewrite H.
    eexists. split; [reflexivity |]. right. reflexivity.
  - eexists. split; [reflexivity |]. left. reflexivity.
Qed.


(** The tasks of the pool: every one ends in a future; with a delay that
    [time.sleep] takes and cache reads that return they all return a
    summary, and with a delay that it refuses they all raise, before
    anything is touched. *)
Lemma run_tasks_effect delay use_cache :
  forall dowlknums w,
  exists futures w',
    run_tasks delay use_cache dowlknums w = (Ok futures, w') /\
    map snd futures = dowlknums /\
    Forall names_its_key futures /\
    footprint dowlknums use_cache w w' /\
    (valid_delay delay = true -> reads_return dowlknums use_cache w ->
     Forall returned futures) /\
    (valid_delay delay = false -> Forall raised futures /\ w' = w).
Proof.
  induction dowlknums as [|dowlknum rest IH]; intros w.
  - exists [], w. split; [reflexivity |]. split; [reflexivity |].
    split; [constructor |]. split; [apply footprint_refl |].
    split; [constructor |]. split; [constructor | reflexivity].
  - cbn [run_tasks]. unfold mbind at 1, M_bind.
    assert (Hsub : exists f w1,
      submit delay use_cache dowlknum w = (Ok (f, dowlknum), w1) /\
      names_its_key (f, dowlknum) /\
      footprint [dowlknum] use_cache w w1 /\
      (forall other, decodes other w -> decodes other w1) /\
      (valid_delay delay = true ->
       use_cache = false \/ decodes dowlknum w -> returned (f, dowlknum)) /\
      (valid_delay delay = false -> raised (f, dowlknum) /\ w1 = w)).
    { unfold submit, fetch_single_lake. unfold mbind at 1, M_bind.
      destruct (valid_delay delay) eqn:Hd.
      - rewrite (time_sleep_valid _ _ Hd). unfold mbind at 1, M_bind.
        destruct (get_footprint dowlknum use_cache (advance delay w))
          as (r1 & w1 & -> & Hnn & Hfp & Hex & Hdec).
        destruct r1 as [summary|e].
        + eexists _, w1. split; [reflexivity |]. split; [reflexivity |].
          split; [exact Hfp |]. split; [exact Hdec |].
          split; [| discriminate]. intros _ _.
          exists summary. split; [reflexivity |]. apply Hnn. reflexivity.
        + eexists _, w1. split; [reflexivity |]. split; [exact I |].
          split; [exact Hfp |]. split; [exact Hdec |].
          split; [| discriminate]. intros _ Hsafe.
          destruct (Hex Hsafe) as [s Hs]. discriminate.
      - destruct (time_sleep_refused delay w Hd) as (e & -> & _).
        eexists _, w. split; [reflexivity |]. split; [exact I |].
        split; [apply footprint_refl |]. split; [auto |].
        split; [discriminate |]. intros _.
        split; [exists e; reflexivity | reflexivity]. }
    destruct Hsub as (f & w1 & -> & Hname & Hfp1 & Hdec1 & Hret1 & Hraise1).
    unfold mbind at 1, M_bind.
    destruct (IH w1)
      as (futures & w' & -> & Hkeys & Hnames & Hfp' & Hret & Hraise).
    eexists _, w'. split; [reflexivity |]. cbn [map snd].
    split; [rewrite Hkeys; reflexivity |].
    split; [constructor; assumption |].
    split; [apply (footprint_app [dowlknum] rest _ _ _ _ Hfp1 Hfp') |].
    split.
    + intros Hd Hrr. constructor.
      * apply Hret1; [exact Hd |].
        destruct Hrr as [Hf | Hall]; [left; exact Hf | right].
        apply Hall. apply list_elem_of_here.
      * apply Hret; [exact Hd |].
        destruct Hrr as [Hf | Hall]; [left; exact Hf | right].
        intros k Hk. apply Hdec1, Hall. apply list_elem_of_further. exact Hk.
    + intros Hd. destruct (Hraise1 Hd) as [Hr1 ->].
      destruct (Hraise Hd) as [Hr ->].
      split; [constructor; assumption | reflexivity].
Qed.

Lemma returned_names_its_key fk : returned fk -> names_its_key fk.
Proof.
  intros (v & Hf & _). unfold names_its_key. rewrite Hf. reflexivity.
Qed.

Lemma collect_returned futures : forall results,
  Forall returned futures -> all_summaries results ->
  all_summaries (collect futures results).
Proof.
  induction futures as [|[f k] rest IH]; intros results Hret Hall.
  - exact Hall.
  - inversion Hret as [|? ? (v & Hf & Hnn) Hrest]; subst.
    cbn [fst snd] in Hf. subst f. cbn [collect].
    apply IH; [exact Hrest |]. apply all_summaries_insert; assumption.
Qed.

Lemma all_summaries_empty : all_summaries ∅.
Proof. intros k v Hk. rewrite lookup_empty in Hk. discriminate. Qed.



Lemma raised_names_its_key fk : raised fk -> names_its_key fk.
Proof. intros (e & Hf). unfold names_its_key. rewrite Hf. exact I. Qed.

Lemma all_None_insert dowlknum results :
  all_None results -> all_None (<[dowlknum := JNull]> results).
Proof.
  intros Hall k v Hk. destruct (decide (dowlknum = k)) as [-> | Hne].
  - rewrite lookup_insert_eq in Hk. congruence.
  - rewrite lookup_insert_ne in Hk by exact Hne. exact (Hall _ _ Hk).
Qed.

Lemma collect_all_raised futures : forall results,
  Forall raised futures -> all_None results ->
  all_None (collect futures results).
Proof.
  induction futures as [|[f k] rest IH]; intros results Hr Hall.
  - exact Hall.
  - inversion Hr as [|? ? (e & Hf) Hrest]; subst.
    cbn [fst] in Hf. subst f. cbn [collect].
    apply IH; [exact Hrest | apply all_None_insert; exact Hall].
Qed.

Lemma ThreadPoolExecutor_cases max_workers w :
  ThreadPoolExecutor max_workers w = (Ok tt, w) \/
  exists e, ThreadPoolExecutor max_workers w = (Raise e, w).
Proof.
  unfold ThreadPoolExecutor. destruct (max_workers <=? 0);
    [right; eexists | left]; reflexivity.
Qed.

(** The parallel batch, whether the pool starts or not. *)
Lemma parallel_batch_effect sch dowlknums max_workers delay use_cache w :
  fair sch ->
  exists r w',
    batch_fetch_fish_surveys_parallel sch dowlknums max_workers delay
      use_cache w = (r, w') /\
    footprint dowlknums use_cache w w' /\
    (forall results, r = Ok results -> dom results = list_to_set dowlknums) /\
    (valid_workers max_workers = true -> exists results, r = Ok results) /\
    (valid_delay delay = true -> reads_return dowlknums use_cache w ->
     forall results, r = Ok results -> all_summaries results) /\
    (valid_delay delay = false ->
     w' = w /\ forall results, r = Ok results -> all_None results).
Proof.
  intros [Hstart Hdone]. unfold batch_fetch_fish_surveys_parallel.
  unfold mbind at 1, M_bind.
  match goal with
  | |- context [ThreadPoolExecutor ?m w] =>
      destruct (ThreadPoolExecutor_cases m w) as [Hpool | [e Hpool]];
      pose proof (ThreadPoolExecutor_valid max_workers w) as Hvalid;
      rewrite Hpool in *
  end.
  2: { exists (Raise e), w. split; [reflexivity |].
       split; [apply footprint_refl |]. split; [discriminate |].
       split; [intros Hmw; specialize (Hvalid Hmw); discriminate |].
       split; [discriminate |]. intros _. split; [reflexivity | discriminate]. }
  unfold mbind at 1, M_bind.
  destruct (run_tasks_effect delay use_cache (start_order sch dowlknums) w)
    as (futures & w' & -> & Hkeys & Hnames & Hfp & Hret & Hraise).
  eexists _, w'. split; [reflexivity |].
  split; [apply (footprint_perm _ _ _ _ _ (Hstart dowlknums) Hfp) |].
  split.
  { intros results H. inversion H; subst results.
    rewrite collect_dom by (rewrite (Hdone futures); exact Hnames).
    rewrite dom_empty_L, union_empty_l_L.
    rewrite (list_to_set_perm_L _ (map snd futures))
      by (apply fmap_Permutation, Hdone).
    rewrite Hkeys. apply list_to_set_perm_L, Hstart. }
  split; [eauto |]. split.
  - intros Hd Hrr results H. inversion H; subst results.
    apply collect_returned; [| apply all_summaries_empty].
    rewrite (Hdone futures). apply Hret; [exact Hd |].
    destruct Hrr as [Hf | Hall]; [left; exact Hf | right].
    intros k Hk. apply Hall. rewrite <- (Hstart dowlknums). exact Hk.
  - intros Hd. destruct (Hraise Hd) as [Hr ->]. split; [reflexivity |].
    intros results H. inversion H; subst results.
    apply collect_all_raised; [rewrite (Hdone futures); exact Hr |].
    intros k v Hk. rewrite lookup_empty in Hk. discriminate.
Qed.








(** ** BatchCoordinator: a delay that [time.sleep] refuses *)

(** X11. With a delay that [time.sleep] refuses (negative, NaN or beyond
    its range) the parallel batch does not raise: every task fails before
    it resolves its key, so the result holds [None] for every requested
    key, and no request is sent and nothing else changes. *)
Theorem parallel_batch_with_refused_delay sch dowlknums max_workers delay
    use_cache w :
  fair sch -> valid_workers max_workers = true -> valid_delay delay = false ->
  exists results,
    batch_fetch_fish_surveys_parallel sch dowlknums max_workers delay
      use_cache w = (Ok results, w) /\
    dom results = list_to_set dowlknums /\
    all_None results.
Proof.
  intros Hfair Hmw Hd.
  destruct (parallel_batch_effect sch dowlknums max_workers delay use_cache w
              Hfair) as (r & w' & H & _ & Hdom & Hex & _ & Hraise).
  destruct (Hex Hmw) as [results ->]. destruct (Hraise Hd) as [-> Hnone].
  exists results. split; [exact H |].
  split; [exact (Hdom _ eq_refl) | exact (Hnone _ eq_refl)].
Qed.

(** A negative delay. *)
Lemma parallel_batch_with_refused_delay_witness :
  exists results,
    batch_fetch_fish_surveys_parallel lifo sample_keys None (-1)%float true
      (fresh_world payload_script) =
    (Ok results, fresh_world payload_script) /\
    dom results = list_to_set sample_keys /\
    all_None results.
Proof.
  apply (parallel_batch_with_refused_delay lifo sample_keys None (-1)%float
           true (fresh_world payload_script) lifo_fair eq_refl eq_refl).
Defined.



(** ** BatchCoordinator: small batches and repeated keys *)






(** ** RecordParser: ties, broken records and what a summary holds *)

Lemma string_leb_not_ltb a b : String.leb a b = true -> String.ltb b a = false.
Proof.
  unfold String.ltb, String.leb. rewrite (String.compare_antisym b a).
  destruct (String.compare a b); cbn; congruence.
Qed.

Lemma sort_by_date_first older s rest :
  (forall r, In r older -> String.ltb (date_of r) (date_of s) = true) ->
  (forall r, In r rest -> String.leb (date_of r) (date_of s) = true) ->
  exists others, sort_by_date (older ++ s :: rest) = s :: others.
Proof.
  intros Hold Hrest. induction older as [|a older IH].
  - cbn [app sort_by_date fold_right]. fold (sort_by_date rest).
    pose proof (sort_by_date_perm rest) as Hp.
    destruct (sort_by_date rest) as [|h t]; [exists []; reflexivity |].
    cbn [insert_by_date].
    rewrite (string_leb_not_ltb (date_of h) (date_of s)); [eauto |].
    apply Hrest. apply (Permutation_in _ Hp). left. reflexivity.
  - destruct IH as [others IH].
    { intros r Hr. apply Hold. right. exact Hr. }
    cbn [app sort_by_date fold_right]. fold (sort_by_date (older ++ s :: rest)).
    rewrite IH. cbn [insert_by_date].
    rewrite (Hold a (or_introl eq_refl)). eauto.
Qed.

(** X15. Ties in the date are broken by the array order: of the standard
    surveys with catch entries, the parser selects the first, in the
    order of the payload, among those of the greatest date. *)
Theorem equal_dates_first_in_array_wins (surveys older rest : list json)
    (s : json) :
  all_well_formed surveys ->
  candidates "Standard Survey" surveys = (older ++ s :: rest)%list ->
  (forall r, In r older -> String.ltb (date_of r) (date_of s) = true) ->
  (forall r, In r rest -> String.leb (date_of r) (date_of s) = true) ->
  select_survey surveys = Ok (Some s).
Proof.
  intros Hwf Hc Hold Hrest.
  destruct (select_survey_selection surveys Hwf) as [-> _].
  unfold selection. rewrite Hc.
  destruct (sort_by_date_first older s rest Hold Hrest) as [others ->].
  reflexivity.
Qed.

(** Two standard surveys of one date, an older one before them: the first
    of the two is selected. *)
Lemma equal_dates_first_in_array_wins_witness :
  select_survey
    [survey_2020;
     survey "Standard Survey" "2022-06-15"
       [catch_entry "Walleye" (JInt 1) JNull];
     survey_2022] =
  Ok (Some (survey "Standard Survey" "2022-06-15"
              [catch_entry "Walleye" (JInt 1) JNull])).
Proof.
  apply (equal_dates_first_in_array_wins _ [survey_2020] [survey_2022]).
  - repeat constructor.
  - reflexivity.
  - intros r [<- | []]. reflexivity.
  - intros r [<- | []]. reflexivity.
Defined.

Lemma is_survey_of_type_not_dict ty bad :
  (forall d, bad <> JObj d) -> exists e, is_survey_of_type ty bad = Raise e.
Proof.
  intros Hbad. unfold is_survey_of_type.
  destruct bad; try (eexists; reflexivity). exfalso. eapply Hbad. reflexivity.
Qed.

Lemma filterM_raises {A} (p : A -> res bool) x : forall l,
  In x l -> (exists e, p x = Raise e) -> exists e, filterM p l = Raise e.
Proof.
  induction l as [|y l IH]; intros Hin Hx; [destruct Hin |].
  cbn [filterM]. destruct (p y) as [b|e] eqn:Ey; [| eexists; reflexivity].
  cbn [mbind res_bind].
  destruct Hin as [-> | Hin].
  - destruct Hx as [e He]. congruence.
  - destruct (IH Hin Hx) as [e ->]. eexists. reflexivity.
Qed.

(** X16. One record that is not a dictionary, anywhere in the surveys
    array, makes the parser give up on the whole payload: it returns the
    zero-value summary with a [parse_error], whatever the other records
    hold. *)
Theorem non_dictionary_record_discards_all (o r : dict)
    (surveys : list json) (bad : json) :
  Py.dict_lookup "result" o = Some (JObj r) ->
  Py.dict_lookup "surveys" r = Some (JArr surveys) ->
  In bad surveys ->
  (forall d, bad <> JObj d) ->
  exists e, parse_fish_survey_data (JObj o) = Ok (parse_error_summary e).
Proof.
  intros Hres Hsur Hin Hbad.
  destruct (filterM_raises (is_survey_of_type "Standard Survey") bad surveys
              Hin (is_survey_of_type_not_dict _ _ Hbad)) as [e He].
  exists e. rewrite parse_fish_survey_data_unfold.
  assert (Hbody : parse_body (JObj o) = Raise e).
  { unfold parse_body. cbn [Py.contains Py.getitem]. rewrite Hres.
    rewrite bool_decide_eq_true_2 by eauto.
    cbn [negb mbind res_bind Py.contains Py.getitem]. rewrite Hsur.
    rewrite bool_decide_eq_true_2 by eauto.
    cbn [mbind res_bind andb Py.truthy].
    destruct surveys as [|s0 rest0]; [destruct Hin |].
    cbn [Py.iter mbind res_bind].
    unfold select_survey, select_most_recent. rewrite He. reflexivity. }
  rewrite Hbody. reflexivity.
Qed.

(** A null after the two standard surveys. *)
Lemma non_dictionary_record_discards_all_witness :
  exists e,
    parse_fish_survey_data (payload_of [survey_2020; survey_2022; JNull]) =
    Ok (parse_error_summary e).
Proof.
  apply (non_dictionary_record_discards_all
           [("status", JStr "SUCCESS");
            ("result",
              JObj [("surveys", JArr [survey_2020; survey_2022; JNull])])]
           [("surveys", JArr [survey_2020; survey_2022; JNull])]
           [survey_2020; survey_2022; JNull] JNull eq_refl eq_refl).
  - right. right. left. reflexivity.
  - intros d. discriminate.
Defined.





(** ** RecordCache: the counts and the reads agree *)

Lemma filter_all_length {A} (P : A -> Prop) `{forall x, Decision (P x)}
    (l : list A) :
  length (filter P l) = length l -> Forall P l.
Proof.
  induction l as [|x l IH]; [constructor |].
  rewrite filter_cons. destruct (decide (P x)) as [Hx | Hx]; cbn [length].
  - intros Hlen. constructor; [exact Hx | apply IH; lia].
  - intros Hlen. pose proof (length_filter P l). lia.
Qed.

(** X19. The counts of [get_cache_stats] and the reads of the cache agree
    on what is fresh: when the statistics show no expired file, every key
    whose cache file holds a summary and can be read is resolved from the
    cache, with no request and no change to the world. *)
Theorem no_expired_file_means_cache_hits w stats :
  get_cache_stats w = (Ok stats, w) ->
  expired_files stats = 0%nat ->
  forall dowlknum f d,
    entry dowlknum w = Some f -> content f = Document d ->
    readable dowlknum w -> is_None d = false ->
    get_fish_survey_summary dowlknum true w = (Ok d, w).
Proof.
  unfold get_cache_stats. intros Hstats Hexp dowlknum f d He Hc Hr Hd.
  inversion Hstats as [Hs]. clear Hstats. subst stats.
  cbn [expired_files] in Hexp.
  set (cache_files :=
         filter (fun nf : string * file => is_cache_file (fst nf) = true)
           (map_to_list (cache_dir w))) in *.
  pose proof (length_filter
    (fun nf : string * file =>
       PrimFloat.leb (clock w - st_mtime (snd nf))%float TTL = true)
    cache_files) as Hle.
  assert (Hall : Forall
    (fun nf : string * file =>
       PrimFloat.leb (clock w - st_mtime (snd nf))%float TTL = true)
    cache_files).
  { apply (filter_all_length
             (fun nf : string * file =>
                PrimFloat.leb (clock w - st_mtime (snd nf))%float TTL = true)
             cache_files).
    lia. }
  assert (Hin : (_get_cache_file_path dowlknum, f) ∈ cache_files).
  { apply list_elem_of_filter. split; [apply cache_file_path_matches |].
    apply elem_of_map_to_list. exact He. }
  pose proof (proj1 (Forall_forall _ _) Hall _ Hin) as Hfresh.
  cbn [snd] in Hfresh.
  apply get_hit; [| exact Hd].
  rewrite (load_fresh dowlknum w f He), Hc; [reflexivity | | exact Hr |].
  - unfold fresh, expired. rewrite (leb_not_ltb _ _ Hfresh). reflexivity.
  - unfold escapes. rewrite Hc. reflexivity.
Qed.

(** One entry, just written. *)
Lemma no_expired_file_means_cache_hits_witness :
  get_fish_survey_summary "27000100" true
    (store (_get_cache_file_path "27000100")
       (JObj (no_data_summary "27000100" 1700000000))
       (fresh_world payload_script)) =
  (Ok (JObj (no_data_summary "27000100" 1700000000)),
   store (_get_cache_file_path "27000100")
     (JObj (no_data_summary "27000100" 1700000000))
     (fresh_world payload_script)).
Proof.
  apply (no_expired_file_means_cache_hits
           (store (_get_cache_file_path "27000100")
              (JObj (no_data_summary "27000100" 1700000000))
              (fresh_world payload_script))
           _ eq_refl)
    with (f := File 1700000000 (Document
                 (JObj (no_data_summary "27000100" 1700000000)))).
  - vm_compute. reflexivity.
  - apply entry_store.
  - reflexivity.
  - unfold readable. vm_compute. set_solver.
  - reflexivity.
Defined.

(** ** Utilities: file names *)

Lemma append_inj_prefix (a b c : string) : a +:+ b = a +:+ c -> b = c.
Proof.
  induction a as [|x a IH]; [intros H; exact H |].
  change (String x (a +:+ b) = String x (a +:+ c) -> b = c).
  intros H. injection H as H. exact (IH H).
Qed.

(** X20. [format_lake_filename] gives distinct lakes distinct file names
    under one extension, and one lake distinct names under distinct
    extensions. *)
Theorem lake_filename_per_key_and_extension dowlknum1 dowlknum2 extension1
    extension2 :
  (format_lake_filename dowlknum1 extension1 =
   format_lake_filename dowlknum2 extension1 <-> dowlknum1 = dowlknum2) /\
  (format_lake_filename dowlknum1 extension1 =
   format_lake_filename dowlknum1 extension2 <-> extension1 = extension2).
Proof.
  unfold format_lake_filename. split; split; try (intros ->; reflexivity).
  - intros H. apply append_inj_prefix in H.
    exact (append_inj_suffix _ _ _ H).
  - intros H. do 2 apply append_inj_prefix in H.
    apply (append_inj_prefix "."). exact H.
Qed.

(** ** Per-key resolution: the key in the summary *)




(** ** BatchCoordinator: the result and the cache *)








(** ** RecordCache: the outcomes of a read *)

(** X24. The cache read changes nothing, and the file of the key decides
    what it gives. It gives absent when there is no file, when the file
    was last written more than 86400 seconds (24 hours) before the current
    time, when the file cannot be read, and when its text is not JSON. It
    gives the stored document when the file was written no more than
    86400 seconds ago, can be read and holds a document. When such a file
    is not UTF-8 text, nests too deep for the decoder or holds an integer
    beyond the digit limit, the read raises what [json.load] raises:
    [UnicodeDecodeError], [RecursionError] or [ValueError]. *)
Theorem cache_read_outcomes dowlknum w :
  (exists r, _load_from_cache dowlknum w = (r, w)) /\
  (entry dowlknum w = None -> _load_from_cache dowlknum w = (Ok JNull, w)) /\
  (forall f, entry dowlknum w = Some f ->
     (older_than_ttl (clock w) (st_mtime f) = true ->
      _load_from_cache dowlknum w = (Ok JNull, w)) /\
     (within_ttl (clock w) (st_mtime f) = true ->
      (~ readable dowlknum w ->
       _load_from_cache dowlknum w = (Ok JNull, w)) /\
      (readable dowlknum w ->
       match content f with
       | Document d => _load_from_cache dowlknum w = (Ok d, w)
       | Malformed => _load_from_cache dowlknum w = (Ok JNull, w)
       | NotUTF8 | TooDeep | HugeInt =>
           exists e,
             _load_from_cache dowlknum w = (Raise e, w) /\
             json_load f = Raise e /\
             (exn_cls e = UnicodeDecodeError \/
              exn_cls e = RecursionError \/ exn_cls e = ValueError)
       end))).
Proof.
  split; [| split; [apply load_missing |]].
  - destruct (load_cases dowlknum w)
      as [[v H] | (f & e & _ & _ & _ & _ & H)]; eauto.
  - intros f E. split.
    + intros Hold. apply (load_expired _ _ _ E).
      apply older_than_ttl_expired, Hold.
    + intros Hin. pose proof (within_ttl_fresh _ _ Hin) as F. split.
      * intros Hr. apply (load_unreadable _ _ _ E F Hr).
      * intros Hr. destruct (content f) as [| | | |d] eqn:Hc.
        -- rewrite (load_fresh _ _ _ E F Hr), Hc; [reflexivity |].
           unfold escapes. rewrite Hc. reflexivity.
        -- apply (load_escapes _ _ _ E F Hr). unfold escapes.
           rewrite Hc. reflexivity.
        -- apply (load_escapes _ _ _ E F Hr). unfold escapes.
           rewrite Hc. reflexivity.
        -- apply (load_escapes _ _ _ E F Hr). unfold escapes.
           rewrite Hc. reflexivity.
        -- rewrite (load_fresh _ _ _ E F Hr), Hc; [reflexivity |].
           unfold escapes. rewrite Hc. reflexivity.
Qed.

(** A sentinel written exactly 86400 seconds ago is still read; one
    written a second earlier is not. *)
Lemma cache_read_outcomes_witness :
  _load_from_cache "27000100"
    (stored_world 1699913600
       (Document (JObj (no_data_summary "27000100" 1699913600)))
       not_found_script) =
  (Ok (JObj (no_data_summary "27000100" 1699913600)),
   stored_world 1699913600
     (Document (JObj (no_data_summary "27000100" 1699913600)))
     not_found_script) /\
  _load_from_cache "27000100"
    (stored_world 1699913599
       (Document (JObj (no_data_summary "27000100" 1699913599)))
       not_found_script) =
  (Ok JNull,
   stored_world 1699913599
     (Document (JObj (no_data_summary "27000100" 1699913599)))
     not_found_script).
Proof.
  split.
  - destruct (cache_read_outcomes "27000100"
                (stored_world 1699913600
                   (Document (JObj (no_data_summary "27000100" 1699913600)))
                   not_found_script)) as (_ & _ & H).
    destruct (H (File 1699913600
                   (Document (JObj (no_data_summary "27000100" 1699913600))))
                ltac:(vm_compute; reflexivity)) as [_ Hin].
    destruct (Hin eq_refl) as [_ Hr]. apply Hr.
    unfold readable. vm_compute. set_solver.
  - destruct (cache_read_outcomes "27000100"
                (stored_world 1699913599
                   (Document (JObj (no_data_summary "27000100" 1699913599)))
                   not_found_script)) as (_ & _ & H).
    destruct (H (File 1699913599
                   (Document (JObj (no_data_summary "27000100" 1699913599))))
                ltac:(vm_compute; reflexivity)) as [Hold _].
    exact (Hold eq_refl).
Defined.

(** ** Python values: white space and the order of lists *)

(** [float()] strips the no-break space and the tab, and not the file
    separator. *)
Lemma to_float_white_space :
  Py.to_float (JStr (String (ascii_of_N 160) "12.5")) = Ok 12.5%float /\
  Py.to_float (JStr (String (ascii_of_N 9) "12.5 ")) = Ok 12.5%float /\
  exists e,
    Py.to_float (JStr (String (ascii_of_N 28) "12.5")) = Raise e /\
    exn_cls e = ValueError.
Proof.
  split; [vm_compute; reflexivity |]. split; [vm_compute; reflexivity |].
  eexists. split; [vm_compute; reflexivity | reflexivity].
Qed.

(** Two lists compare by their first pair of items that differ, a prefix
    before the longer list; a pair without an order raises. *)
Lemma lt_lists :
  Py.lt (JArr [JInt 2020; JInt 1]) (JArr [JInt 2020; JInt 6]) = Ok true /\
  Py.lt (JArr [JInt 2020; JInt 6]) (JArr [JFloat 2020; JInt 1]) = Ok false /\
  Py.lt (JArr [JInt 2020]) (JArr [JInt 2020; JInt 6]) = Ok true /\
  Py.lt (JArr [JFloat nan; JInt 1]) (JArr [JFloat nan; JInt 2]) = Ok true /\
  Py.lt (JArr [JStr "a"; JNull]) (JArr [JStr "a"; JNull]) = Ok false /\
  exists e,
    Py.lt (JArr [JInt 1]) (JArr [JStr "a"]) = Raise e /\
    exn_cls e = TypeError.
Proof.
  do 5 (split; [vm_compute; reflexivity |]).
  eexists. split; [vm_compute; reflexivity | reflexivity].
Qed.
